(** * jwt-express: the token life cycle and the guard middleware

    A shallow embedding of [jwt-express.js]: the [JWT] class ([sign],
    [resign], [revoke], [store], [toJSON], [verify]) and the exported
    middleware constructors ([active], [valid], [require], [init],
    [create], [clear]).

    Modelling choices, all stated where they are made:
    - JavaScript values are the primitive JSON values plus [undefined];
      numbers are the integral doubles ([Date.now()] is one, and sums
      of them are exact below 2^53) together with [NaN];
    - an object is the map of its own properties (no prototype chain)
      and lives in a heap, so that two references to one object alias;
    - the [jsonwebtoken] package ([utils] in the source) and the
      engine's reading of a string as a number are parameters;
    - [Date.now()] is an explicit argument of the method that reads it;
    - a method runs in a state-and-exception monad over the heap and a
      trace of the calls made; the callbacks of the options ([verify],
      [revoke]) are total functions that do not write the token's
      fields. *)

From Stdlib Require Import ZArith Lia Bool Ascii.
From stdpp Require Import base strings gmap list pretty.

Local Open Scope string_scope.
Local Open Scope Z_scope.

(** ** JavaScript values and operators *)

Module JS.

Inductive number := NaN | Num (z : Z).

Inductive value :=
| VUndefined
| VNull
| VBool (b : bool)
| VNumber (n : number)
| VString (s : string).

(** An object: its own properties.  Reading a missing property gives
    [undefined]. *)
Abbreviation obj := (gmap string value).

Definition get (o : obj) (k : string) : value := default VUndefined (o !! k).

(** [ToBoolean]. *)
Definition truthy (v : value) : bool :=
  match v with
  | VUndefined | VNull => false
  | VBool b => b
  | VNumber NaN => false
  | VNumber (Num z) => negb (z =? 0)
  | VString s => negb (String.eqb s "")
  end.

Definition num_eq (a b : number) : bool :=
  match a, b with
  | Num x, Num y => x =? y
  | _, _ => false
  end.

(** [a < b] on numbers; [None] is the specification's [undefined], the
    answer when an operand is [NaN]. *)
Definition num_lt (a b : number) : option bool :=
  match a, b with
  | Num x, Num y => Some (x <? y)
  | _, _ => None
  end.

(** [x === y]. *)
Definition strict_eq (x y : value) : bool :=
  match x, y with
  | VUndefined, VUndefined => true
  | VNull, VNull => true
  | VBool a, VBool b => Bool.eqb a b
  | VNumber a, VNumber b => num_eq a b
  | VString a, VString b => String.eqb a b
  | _, _ => false
  end.

Section Coercions.

(** The engine's reading of a string as a number ([StringToNumber]). *)
Variable StringToNumber : string -> number.

(** [ToNumber]. *)
Definition to_number (v : value) : number :=
  match v with
  | VUndefined => NaN
  | VNull => Num 0
  | VBool b => Num (if b then 1 else 0)
  | VNumber n => n
  | VString s => StringToNumber s
  end.

(** [x == y]: [null] and [undefined] equal each other and nothing else;
    two values of one type compare strictly; otherwise both sides are
    read as numbers. *)
Definition loose_eq (x y : value) : bool :=
  match x, y with
  | (VUndefined | VNull), (VUndefined | VNull) => true
  | (VUndefined | VNull), _ => false
  | _, (VUndefined | VNull) => false
  | VBool a, VBool b => Bool.eqb a b
  | VNumber a, VNumber b => num_eq a b
  | VString a, VString b => String.eqb a b
  | _, _ => num_eq (to_number x) (to_number y)
  end.

(** The abstract relational comparison [x < y]: two strings compare by
    code units, anything else as numbers. *)
Definition abstract_lt (x y : value) : option bool :=
  match x, y with
  | VString a, VString b => Some (String.ltb a b)
  | _, _ => num_lt (to_number x) (to_number y)
  end.

Definition lt (x y : value) : bool :=
  match abstract_lt x y with Some true => true | _ => false end.

Definition gt (x y : value) : bool :=
  match abstract_lt y x with Some true => true | _ => false end.

Definition le (x y : value) : bool :=
  match abstract_lt y x with Some false => true | _ => false end.

Definition ge (x y : value) : bool :=
  match abstract_lt x y with Some false => true | _ => false end.

End Coercions.

(** [s.split(c)]: the pieces of [s] between the occurrences of [c]. *)
Fixpoint split (c : ascii) (s : string) : list string :=
  match s with
  | EmptyString => [EmptyString]
  | String a r =>
      if Ascii.eqb a c then EmptyString :: split c r
      else match split c r with
           | p :: ps => String a p :: ps
           | [] => [String a EmptyString]
           end
  end.

(** A reader of plain decimal integer literals, for running the model:
    an optional minus sign and digits; the empty string reads as 0 and
    anything else as [NaN]. *)
Definition digit (a : ascii) : option Z :=
  let n := Z.of_nat (nat_of_ascii a) in
  if (48 <=? n) && (n <=? 57) then Some (n - 48) else None.

Fixpoint digits (acc : Z) (s : string) : number :=
  match s with
  | EmptyString => Num acc
  | String a r =>
      match digit a with
      | Some d => digits (10 * acc + d) r
      | None => NaN
      end
  end.

Definition decimal (s : string) : number :=
  match s with
  | EmptyString => Num 0
  | String "-" EmptyString => NaN
  | String "-" r => match digits 0 r with Num z => Num (- z) | NaN => NaN end
  | _ => digits 0 s
  end.

End JS.

(** ** The state of a run: heap, call trace, exceptions *)

Import JS.

Abbreviation loc := nat.

(** What a callback of the options can read from the token handed to
    it: every field of the [JWT] object but [options], which the
    callback is itself part of. *)
Record Snapshot := {
  snap_token : string;
  snap_payload : loc;
  snap_secret : string;
  snap_valid : bool;
  snap_expired : bool;
  snap_stale : bool
}.

(** The calls a run makes: the [JWT] methods that return [this], the
    calls on the Express response, and the [revoke] callback. *)
Inductive event :=
| Call (method : string)
| ResCookie (name token : string) (cookieOptions : obj)
| ResClearCookie (name : string)
| Revoke (jwt : Snapshot).

Record World := {
  heap : gmap loc obj;
  trace : list event
}.

(** A thrown value is an error object: [name], [message] and whatever
    else was assigned to it. *)
Inductive result (A : Type) :=
| Ok (a : A)
| Throw (err : obj).
Arguments Ok {A} a.
Arguments Throw {A} err.

Definition M (A : Type) : Type := World -> result A * World.

Definition ret {A} (a : A) : M A := fun w => (Ok a, w).

Definition bind {A B} (m : M A) (k : A -> M B) : M B :=
  fun w => match m w with
           | (Ok a, w') => k a w'
           | (Throw e, w') => (Throw e, w')
           end.

Definition throw {A} (err : obj) : M A := fun w => (Throw err, w).

(** [try { body } catch (err) { handler }]. *)
Definition try_catch {A} (body : M A) (handler : obj -> M A) : M A :=
  fun w => match body w with
           | (Ok a, w') => (Ok a, w')
           | (Throw e, w') => handler e w'
           end.

Definition lift {A} (r : result A) : M A := fun w => (r, w).

Notation "'let*' x ':=' m 'in' k" := (bind m (fun x => k))
  (at level 10, x name, m at level 100, k at level 200).

Definition error (name message : string) : obj :=
  {[ "name" := VString name; "message" := VString message ]}.

(** [new JWTExpressError(message)] (the [stack] property that
    [Error.captureStackTrace] adds is left out). *)
Definition JWTExpressError (message : string) : obj := error "JWTExpressError" message.
Definition ReferenceError (message : string) : obj := error "ReferenceError" message.
Definition TypeError (message : string) : obj := error "TypeError" message.

Definition get_heap : M (gmap loc obj) := fun w => (Ok (heap w), w).

(** [{...}]: a new object. *)
Definition alloc (o : obj) : M loc :=
  fun w => let l := fresh (dom (heap w)) in
           (Ok l, {| heap := <[l := o]> (heap w); trace := trace w |}).

(** Reading through a reference; a reference to no object stands for
    [undefined], whose properties cannot be read or set. *)
Definition load (l : loc) : M obj :=
  fun w => match heap w !! l with
           | Some o => (Ok o, w)
           | None => (Throw (TypeError "Cannot read properties of undefined"), w)
           end.

(** [l[k] = v]. *)
Definition set_property (l : loc) (k : string) (v : value) : M unit :=
  fun w => match heap w !! l with
           | Some o => (Ok tt, {| heap := <[l := <[k := v]> o]> (heap w); trace := trace w |})
           | None => (Throw (TypeError "Cannot set properties of undefined"), w)
           end.

Definition emit (e : event) : M unit :=
  fun w => (Ok tt, {| heap := heap w; trace := trace w ++ [e] |}).

(** ** The collaborators *)

(** The [jsonwebtoken] package: [sign(payload, secret, options)] gives
    the token, [verify(token, secret, options)] the payload or throws
    (an error named [TokenExpiredError], [JsonWebTokenError], ...), and
    [decode(token)] the payload without any check, or [null].  The
    payloads are objects, and [sign] and [decode] are taken not to
    throw. *)
Module utils.
Record t := {
  sign : obj -> string -> obj -> string;
  verify : string -> string -> obj -> result obj;
  decode : string -> option obj
}.
End utils.

(** The options of [init], after the defaults were filled in.  [verify]
    reads the token and the heap; [revoke] may change the world. *)
Module Options.
Record t := {
  cookie : string;
  cookieOptions : obj;
  cookies : bool;
  refresh : bool;
  reqProperty : string;
  revoke : Snapshot -> World -> World;
  signOptions : obj;
  stales : Z;
  verify : Snapshot -> gmap loc obj -> bool;
  verifyOptions : obj
}.
End Options.

(** ** The [JWT] class *)

Record JWT := {
  token : string;
  payload : loc;
  secret : string;
  options : Options.t;
  valid : bool;
  expired : bool;
  stale : bool
}.

Definition snapshot (j : JWT) : Snapshot :=
  {| snap_token := token j; snap_payload := payload j; snap_secret := secret j;
     snap_valid := valid j; snap_expired := expired j; snap_stale := stale j |}.

Definition set_token (s : string) (j : JWT) : JWT :=
  {| token := s; payload := payload j; secret := secret j; options := options j;
     valid := valid j; expired := expired j; stale := stale j |}.
Definition set_payload (p : loc) (j : JWT) : JWT :=
  {| token := token j; payload := p; secret := secret j; options := options j;
     valid := valid j; expired := expired j; stale := stale j |}.
Definition set_valid (b : bool) (j : JWT) : JWT :=
  {| token := token j; payload := payload j; secret := secret j; options := options j;
     valid := b; expired := expired j; stale := stale j |}.
Definition set_expired (b : bool) (j : JWT) : JWT :=
  {| token := token j; payload := payload j; secret := secret j; options := options j;
     valid := valid j; expired := b; stale := stale j |}.
Definition set_stale (b : bool) (j : JWT) : JWT :=
  {| token := token j; payload := payload j; secret := secret j; options := options j;
     valid := valid j; expired := expired j; stale := b |}.

(** [new JWT(secret, options)]. *)
Definition new_JWT (secret : string) (options : Options.t) : M JWT :=
  let* p := alloc ∅ in
  ret {| token := ""; payload := p; secret := secret; options := options;
         valid := false; expired := false; stale := true |}.

(** A property of the object [toJSON] returns: a primitive, or a
    reference to an object. *)
Inductive slot :=
| Prim (v : value)
| Ref (l : loc).

Section Methods.

Variable StringToNumber : string -> number.
Variable jsonwebtoken : utils.t.

(** [sign(payload)], with [now] what [Date.now()] returns. *)
Definition sign (now : Z) (payload' : loc) (this : JWT) : M JWT :=
  let* _ := emit (Call "sign") in
  let* _ := set_property payload' "stales"
              (VNumber (Num (now + Options.stales (options this)))) in
  let this := set_payload payload' this in
  let* o := load (payload this) in
  let this := set_token (utils.sign jsonwebtoken o (secret this)
                           (Options.signOptions (options this))) this in
  let this := set_valid true this in
  let this := set_expired false this in
  let this := set_stale false this in
  ret this.

Definition resign (now : Z) (this : JWT) : M JWT :=
  let* _ := emit (Call "resign") in
  sign now (payload this) this.

Definition revoke (this : JWT) : M JWT :=
  let* _ := emit (Call "revoke") in
  let* _ := emit (Revoke (snapshot this)) in
  let* _ := (fun w => (Ok tt, Options.revoke (options this) (snapshot this) w)) in
  ret this.

(** [store(res)]. *)
Definition store (this : JWT) : M JWT :=
  let* _ := emit (Call "store") in
  let* _ := if Options.cookies (options this)
            then emit (ResCookie (Options.cookie (options this)) (token this)
                         (Options.cookieOptions (options this)))
            else ret tt in
  ret this.

Definition toJSON (this : JWT) : M (list (string * slot)) :=
  ret [ ("token", Prim (VString (token this)));
        ("payload", Ref (payload this));
        ("valid", Prim (VBool (valid this)));
        ("expired", Prim (VBool (expired this)));
        ("stale", Prim (VBool (stale this))) ].

(** [verify(token)] in the three steps of its body.  First the token
    is stored ([None] is an [undefined] argument) and handed to
    [utils.verify], whose exception is caught. *)
Definition verify_codec (token' : option string) (this : JWT) : M JWT :=
  let this := set_token (match token' with
                         | Some s => if truthy (VString s) then s else ""
                         | None => ""
                         end) this in
  try_catch
    (let* o := lift (utils.verify jsonwebtoken (token this) (secret this)
                       (Options.verifyOptions (options this))) in
     let* p := alloc o in
     let this := set_payload p this in
     let this := set_valid true this in
     ret this)
    (fun err =>
       let* p := alloc (default ∅ (utils.decode jsonwebtoken (token this))) in
       let this := set_payload p this in
       let this := if loose_eq StringToNumber (get err "name") (VString "TokenExpiredError")
                   then set_expired true this else this in
       ret this).

(** Then the [verify] function of the options is asked. *)
Definition verify_options (this : JWT) : M JWT :=
  let* h := get_heap in
  let this := if valid this && negb (Options.verify (options this) (snapshot this) h)
              then set_valid false this else this in
  ret this.

(** Last the [stales] claim is compared with [now], which is what
    [Date.now()] returns. *)
Definition verify_stales (now : Z) (this : JWT) : M JWT :=
  let* o := load (payload this) in
  let this := if truthy (get o "stales")
                 && le StringToNumber (VNumber (Num now)) (get o "stales")
              then set_stale false this else this in
  ret this.

Definition verify (now : Z) (token' : option string) (this : JWT) : M JWT :=
  let* _ := emit (Call "verify") in
  let* this := verify_codec token' this in
  let* this := verify_options this in
  verify_stales now this.

End Methods.

(** ** The exported middleware *)

(** The Express request, as far as the module reads and writes it:
    [req.cookies], [req.headers.authorization] and the property named
    by [options.reqProperty]. *)
Module Request.
Record t := {
  cookies : gmap string string;
  authorization : option string;
  jwt : option JWT
}.
End Request.

(** What a middleware hands to Express: [next()] or [next(err)]. *)
Inductive outcome :=
| Next
| NextError (err : obj).

(** [(req[reqProperty] || {}).p] for a flag [p] of the token: a missing
    token reads as the empty object, whose properties are [undefined]. *)
Definition flag (p : JWT -> bool) (jwt : option JWT) : value :=
  match jwt with
  | Some j => VBool (p j)
  | None => VUndefined
  end.

(** The middleware [active()] returns. *)
Definition active (req : Request.t) : outcome :=
  let jwt := Request.jwt req in
  if negb (truthy (flag valid jwt)) then NextError (JWTExpressError "JWT is invalid")
  else if truthy (flag stale jwt) then NextError (JWTExpressError "JWT is stale")
  else Next.

(** The middleware [valid()] returns ([valid] itself names the flag of
    the token). *)
Definition valid_guard (req : Request.t) : outcome :=
  let jwt := Request.jwt req in
  if negb (truthy (flag valid jwt)) then NextError (JWTExpressError "JWT is invalid")
  else Next.

(** [ToString], for the message of [require]. *)
Definition to_string (v : value) : string :=
  match v with
  | VUndefined => "undefined"
  | VNull => "null"
  | VBool b => if b then "true" else "false"
  | VNumber NaN => "NaN"
  | VNumber (Num z) => pretty z
  | VString s => s
  end.

Definition operators : list value :=
  VString <$> ["=="; "==="; "!="; "!=="; "<"; "<="; ">"; ">="].

(** [l.indexOf(x)], which searches with [===]. *)
Fixpoint indexOf_from (i : Z) (l : list value) (x : value) : Z :=
  match l with
  | [] => -1
  | y :: r => if strict_eq y x then i else indexOf_from (i + 1) r x
  end.

Definition indexOf (l : list value) (x : value) : Z := indexOf_from 0 l x.

Section Middleware.

Variable StringToNumber : string -> number.
Variable jsonwebtoken : utils.t.

(** The comparison chain of [require]'s middleware; [undefined] when no
    branch is taken. *)
Definition compare (data operator value' : value) : value :=
  let op s := loose_eq StringToNumber operator (VString s) in
  if op "==" then VBool (loose_eq StringToNumber data value')
  else if op "===" then VBool (strict_eq data value')
  else if op "!=" then VBool (negb (loose_eq StringToNumber data value'))
  else if op "!==" then VBool (negb (strict_eq data value'))
  else if op "<" then VBool (lt StringToNumber data value')
  else if op "<=" then VBool (le StringToNumber data value')
  else if op ">" then VBool (gt StringToNumber data value')
  else if op ">=" then VBool (ge StringToNumber data value')
  else VUndefined.

(** The middleware [require(key, operator, value)] returns.  The
    source overwrites the closure's [operator] and [value] on the first
    request when no operator was given; every later request finds the
    same two values, so they are computed here per request. *)
Definition require_middleware (key : string) (operator value' : value)
    (req : Request.t) : M outcome :=
  let* data := match Request.jwt req with
               | Some j => let* o := load (payload j) in ret (get o key)
               | None => ret (get ∅ key)
               end in
  let operator' := if negb (truthy operator) then VString "==" else operator in
  let value' := if negb (truthy operator) then VBool true else value' in
  let ok := compare data operator' value' in
  if negb (truthy ok)
  then
    let err := JWTExpressError "JWT is insufficient" in
    let err := <["key" := VString key]> err in
    let err := <["data" := data]> err in
    let err := <["operator" := operator']> err in
    let err := <["value" := value']> err in
    ret (NextError err)
  else ret Next.

(** [require(key, operator, value)]; an argument left out is
    [undefined]. *)
Definition require (key : string) (operator value' : value)
    : result (Request.t -> M outcome) :=
  if negb (truthy (VString key))
  then Throw (ReferenceError "key must be defined")
  else if truthy operator && (indexOf operators operator =? -1)
  then Throw (JWTExpressError ("Invalid operator: " ++ to_string operator))
  else Ok (require_middleware key operator value').

(** The token [init]'s middleware reads from the request. *)
Definition extract (options : Options.t) (req : Request.t) : option string :=
  if Options.cookies options
  then Request.cookies req !! Options.cookie options
  else match Request.authorization req with
       | Some a => if truthy (VString a) then split " " a !! 1%nat else None
       | None => None
       end.

Definition set_jwt (j : JWT) (req : Request.t) : Request.t :=
  {| Request.cookies := Request.cookies req;
     Request.authorization := Request.authorization req;
     Request.jwt := Some j |}.

(** The middleware [init] returns, up to its call of [next()].  [now]
    is the clock [verify] reads and [now'] the one [resign] reads.  The
    result is the request with the token attached: [req[reqProperty]]
    and the local [jwt] are one object, so a refresh shows in both. *)
Definition init_middleware (secret : Request.t -> string) (this_options : Options.t)
    (now now' : Z) (req : Request.t) : M Request.t :=
  let token := extract this_options req in
  let* jwt := new_JWT (secret req) this_options in
  let* jwt := verify StringToNumber jsonwebtoken now token jwt in
  let* jwt := if valid jwt && negb (stale jwt) && Options.refresh (options jwt)
              then let* jwt := resign jsonwebtoken now' jwt in store jwt
              else ret jwt in
  ret (set_jwt jwt req).

End Middleware.

(** ** [init], [create] and [clear] *)

(** The [secret] argument: a string, or a function of the request
    ([init]) or of the payload ([create]). *)
Inductive Secret (A : Type) :=
| SecretString (s : string)
| SecretFunction (f : A -> string).
Arguments SecretString {A} s.
Arguments SecretFunction {A} f.

(** [!secret]: a function is truthy, a string unless it is empty. *)
Definition secret_given {A} (secret : option (Secret A)) : bool :=
  match secret with
  | None => false
  | Some (SecretString s) => truthy (VString s)
  | Some (SecretFunction _) => true
  end.

Definition resolve {A} (secret : option (Secret A)) (a : A) : string :=
  match secret with
  | Some (SecretString s) => s
  | Some (SecretFunction f) => f a
  | None => ""
  end.

(** The [options] argument of [init]: every key may be left out. *)
Module UserOptions.
Record t := {
  cookie : option string;
  cookieOptions : option obj;
  cookies : option bool;
  refresh : option bool;
  reqProperty : option string;
  revoke : option (Snapshot -> World -> World);
  signOptions : option obj;
  stales : option Z;
  verify : option (Snapshot -> gmap loc obj -> bool);
  verifyOptions : option obj
}.

Definition none : t :=
  {| cookie := None; cookieOptions := None; cookies := None; refresh := None;
     reqProperty := None; revoke := None; signOptions := None; stales := None;
     verify := None; verifyOptions := None |}.
End UserOptions.

Definition defaults : Options.t :=
  {| Options.cookie := "jwt-express";
     Options.cookieOptions := {[ "httpOnly" := VBool true ]};
     Options.cookies := true;
     Options.refresh := true;
     Options.reqProperty := "jwt";
     Options.revoke := fun _ w => w;
     Options.signOptions := ∅;
     Options.stales := 900000;
     Options.verify := fun _ _ => true;
     Options.verifyOptions := ∅ |}.

(** The loop over the keys of [defaults]. *)
Definition fill_in (u : UserOptions.t) : Options.t :=
  {| Options.cookie := default (Options.cookie defaults) (UserOptions.cookie u);
     Options.cookieOptions := default (Options.cookieOptions defaults) (UserOptions.cookieOptions u);
     Options.cookies := default (Options.cookies defaults) (UserOptions.cookies u);
     Options.refresh := default (Options.refresh defaults) (UserOptions.refresh u);
     Options.reqProperty := default (Options.reqProperty defaults) (UserOptions.reqProperty u);
     Options.revoke := default (Options.revoke defaults) (UserOptions.revoke u);
     Options.signOptions := default (Options.signOptions defaults) (UserOptions.signOptions u);
     Options.stales := default (Options.stales defaults) (UserOptions.stales u);
     Options.verify := default (Options.verify defaults) (UserOptions.verify u);
     Options.verifyOptions := default (Options.verifyOptions defaults) (UserOptions.verifyOptions u) |}.

Section Exports.

Variable StringToNumber : string -> number.
Variable jsonwebtoken : utils.t.

(** [init(secret, options)]: the options of the module from now on, and
    the middleware. *)
Definition init (secret : option (Secret Request.t)) (options : option UserOptions.t)
    : result (Options.t * (Z -> Z -> Request.t -> M Request.t)) :=
  if negb (secret_given secret)
  then Throw (ReferenceError "secret must be defined")
  else
    let this_options := fill_in (default UserOptions.none options) in
    Ok (this_options,
        init_middleware StringToNumber jsonwebtoken (resolve secret) this_options).

(** [res.jwt(payload)], which [init]'s middleware installs. *)
Definition res_jwt (secret : Request.t -> string) (this_options : Options.t)
    (req : Request.t) (now : Z) (payload' : loc) : M JWT :=
  let* jwt := new_JWT (secret req) this_options in
  let* jwt := sign jsonwebtoken now payload' jwt in
  store jwt.

(** [clear()] before and after the middleware ran. *)
Definition clear_uninitialised : M unit :=
  throw (JWTExpressError "init must be called before clear").

Definition clear (this_options : Options.t) : M unit :=
  if Options.cookies this_options
  then emit (ResClearCookie (Options.cookie this_options))
  else ret tt.

(** [create(secret, payload)]; the secret function is handed the
    payload, [None] when it is not an object. *)
Definition create (this_options : Options.t) (secret : option (Secret (option obj)))
    (now : Z) (payload' : loc) : M JWT :=
  if negb (secret_given secret)
  then throw (ReferenceError "secret must be defined")
  else
    let* h := get_heap in
    let* jwt := new_JWT (resolve secret (h !! payload')) this_options in
    sign jsonwebtoken now payload' jwt.

End Exports.

(** ** Sequences of method calls

    The methods that return [this] can be chained on one token. *)
Inductive operation :=
| OpSign (now : Z) (payload' : loc)
| OpResign (now : Z)
| OpRevoke
| OpStore
| OpVerify (now : Z) (token' : option string).

Definition apply_operation (StringToNumber : string -> number) (jsonwebtoken : utils.t)
    (o : operation) (this : JWT) : M JWT :=
  match o with
  | OpSign now payload' => sign jsonwebtoken now payload' this
  | OpResign now => resign jsonwebtoken now this
  | OpRevoke => revoke this
  | OpStore => store this
  | OpVerify now token' => verify StringToNumber jsonwebtoken now token' this
  end.

Fixpoint apply_operations (StringToNumber : string -> number) (jsonwebtoken : utils.t)
    (os : list operation) (this : JWT) : M JWT :=
  match os with
  | [] => ret this
  | o :: os =>
      let* this := apply_operation StringToNumber jsonwebtoken o this in
      apply_operations StringToNumber jsonwebtoken os this
  end.

(** ** A stand-in for [jsonwebtoken], to run the model

    Three kinds of token: ["good"] verifies to [claims0], ["expired"]
    has a good signature and a past [exp], anything else is malformed.
    Signing gives ["good"]. *)
Module Stub.

Definition claims0 : obj :=
  {[ "admin" := VBool true; "stales" := VNumber (Num 1900000) ]}.

Definition jsonwebtoken : utils.t :=
  {| utils.sign := fun _ _ _ => "good";
     utils.verify := fun tok _ _ =>
       if String.eqb tok "good" then Ok claims0
       else if String.eqb tok "expired" then Throw (error "TokenExpiredError" "jwt expired")
       else Throw (error "JsonWebTokenError" "jwt malformed");
     utils.decode := fun tok =>
       if String.eqb tok "good" || String.eqb tok "expired" then Some claims0 else None |}.

Definition world0 : World := {| heap := ∅; trace := [] |}.

End Stub.

(** A second stand-in, with [jsonwebtoken]'s default treatment of the
    registered claims: a verified payload carries the [iat] that
    signing added, and a payload whose [exp] has passed signs to a
    token that verifies as expired.  A payload stamped [stales = 0]
    signs to ["epoch"]. *)
Module Registered.

Definition issued : obj :=
  <[ "iat" := VNumber (Num 1000) ]> Stub.claims0.

Definition issued_at_epoch : obj :=
  {[ "admin" := VBool true; "stales" := VNumber (Num 0); "iat" := VNumber (Num 0) ]}.

Definition jsonwebtoken : utils.t :=
  {| utils.sign := fun o _ _ =>
       if bool_decide (is_Some (o !! "exp")) then "expired"
       else if strict_eq (get o "stales") (VNumber (Num 0)) then "epoch"
       else "good";
     utils.verify := fun tok _ _ =>
       if String.eqb tok "good" then Ok issued
       else if String.eqb tok "epoch" then Ok issued_at_epoch
       else if String.eqb tok "expired" then Throw (error "TokenExpiredError" "jwt expired")
       else Throw (error "JsonWebTokenError" "jwt malformed");
     utils.decode := fun tok =>
       if String.eqb tok "good" || String.eqb tok "expired" then Some issued
       else if String.eqb tok "epoch" then Some issued_at_epoch
       else None |}.

End Registered.

(** The value a run returned, if it did not throw. *)
Definition returned {A} (r : result A * World) : option A :=
  match r with
  | (Ok a, _) => Some a
  | (Throw _, _) => None
  end.

(** ** Vocabulary of the statements *)

Definition throws {A} (r : result A) : bool :=
  match r with
  | Ok _ => false
  | Throw _ => true
  end.

(** [token || ''], the string [verify] stores. *)
Definition or_empty (token' : option string) : string :=
  match token' with
  | Some s => if truthy (VString s) then s else ""
  | None => ""
  end.

(** [err.name == 'TokenExpiredError']. *)
Definition expired_error (StringToNumber : string -> number) (err : obj) : bool :=
  loose_eq StringToNumber (get err "name") (VString "TokenExpiredError").

(** The reference the next [alloc] returns, and the world it leaves. *)
Definition fresh_loc (w : World) : loc := fresh (dom (heap w)).

Definition allocated (o : obj) (w : World) : World :=
  {| heap := <[fresh_loc w := o]> (heap w); trace := trace w |}.

Definition logged (e : event) (w : World) : World :=
  {| heap := heap w; trace := trace w ++ [e] |}.

(** The payload after [sign] stamped it at time [now]. *)
Definition stamped (now : Z) (options : Options.t) (o : obj) : obj :=
  <["stales" := VNumber (Num (now + Options.stales options))]> o.

(** The same token held under another secret and other options. *)
Definition with_secret (s : string) (o : Options.t) (j : JWT) : JWT :=
  {| token := token j; payload := payload j; secret := s; options := o;
     valid := valid j; expired := expired j; stale := stale j |}.

(** The claims [require]'s middleware looks a key up in: the payload of
    the request's token, the empty object without a token. *)
Definition claims_of (w : World) (req : Request.t) : option obj :=
  match Request.jwt req with
  | Some j => heap w !! payload j
  | None => Some ∅
  end.

(** How often the method [m] was called in a trace. *)
Definition is_call (m : string) (e : event) : bool :=
  match e with
  | Call m' => String.eqb m m'
  | _ => false
  end.

Definition calls (m : string) (t : list event) : nat :=
  length (List.filter (is_call m) t).

(** Options whose [verify] function turns every token down. *)
Definition rejecting : Options.t :=
  fill_in {| UserOptions.cookie := None; UserOptions.cookieOptions := None;
             UserOptions.cookies := None; UserOptions.refresh := None;
             UserOptions.reqProperty := None; UserOptions.revoke := None;
             UserOptions.signOptions := None; UserOptions.stales := None;
             UserOptions.verify := Some (fun _ _ => false);
             UserOptions.verifyOptions := None |}.

(** A token as the constructor leaves it, with its payload at [p]. *)
Definition constructed (p : loc) (secret : string) (options : Options.t) : JWT :=
  {| token := ""; payload := p; secret := secret; options := options;
     valid := false; expired := false; stale := true |}.

(** What the first step of [verify] leaves: the token [j1] and the
    payload [claims], stored in a new object. *)
Definition codec_step (S2N : string -> number) (codec : utils.t)
    (tok : option string) (this : JWT) (w : World)
    (j1 : JWT) (claims : obj) : Prop :=
  verify_codec S2N codec tok this w = (Ok j1, allocated claims w)
  /\ token j1 = or_empty tok /\ payload j1 = fresh_loc w
  /\ secret j1 = secret this /\ options j1 = options this /\ stale j1 = stale this
  /\ match utils.verify codec (or_empty tok) (secret this)
             (Options.verifyOptions (options this)) with
     | Ok o => claims = o /\ valid j1 = true /\ expired j1 = expired this
     | Throw err =>
         claims = default ∅ (utils.decode codec (or_empty tok))
         /\ valid j1 = valid this
         /\ expired j1 = (if expired_error S2N err then true else expired this)
     end.

(** The token the first request of a session leaves for the next: what
    [verify] found ([j1] after its first step, [j'] at its end), with
    the decoded payload [claims] in the world [w']. *)
Definition verified (S2N : string -> number) (codec : utils.t) (now : Z)
    (tok : option string) (this : JWT) (w : World)
    (j1 : JWT) (claims : obj) (j' : JWT) (w' : World) : Prop :=
  w' = allocated claims (logged (Call "verify") w)
  /\ codec_step S2N codec tok this (logged (Call "verify") w) j1 claims
  /\ verify S2N codec now tok this w = (Ok j', w')
  /\ heap w' !! payload j' = Some claims
  /\ token j' = token j1 /\ payload j' = payload j1 /\ secret j' = secret j1
  /\ options j' = options j1 /\ expired j' = expired j1
  /\ valid j' = valid j1 && Options.verify (options j1) (snapshot j1) (heap w')
  /\ stale j' = stale j1
                && negb (truthy (get claims "stales")
                         && le S2N (VNumber (Num now)) (get claims "stales")).

(** The token [sign] leaves when it stamps and encodes [claims] for the
    token [this], whose payload object holds them. *)
Definition signed (codec : utils.t) (now : Z) (claims : obj) (p : loc) (this : JWT) : JWT :=
  {| token := utils.sign codec (stamped now (options this) claims) (secret this)
                (Options.signOptions (options this));
     payload := p; secret := secret this; options := options this;
     valid := true; expired := false; stale := false |}.

(** The calls on the response that touch the cookie. *)
Definition touches_cookie (e : event) : bool :=
  match e with
  | ResCookie _ _ _ | ResClearCookie _ => true
  | _ => false
  end.

Definition cookie_events (t : list event) : list event :=
  List.filter touches_cookie t.

(** A string without the character [c]. *)
Fixpoint lacks (c : ascii) (s : string) : bool :=
  match s with
  | EmptyString => true
  | String a r => negb (Ascii.eqb a c) && lacks c r
  end.

(** A request as Express hands it over, with these cookies and this
    [Authorization] header. *)
Definition incoming (cookies : gmap string string) (authorization : option string)
    : Request.t :=
  {| Request.cookies := cookies; Request.authorization := authorization;
     Request.jwt := None |}.

(** The error [require]'s middleware hands on. *)
Definition insufficient (key : string) (data operator value' : value) : obj :=
  <["value" := value']>
    (<["operator" := operator]>
       (<["data" := data]>
          (<["key" := VString key]> (JWTExpressError "JWT is insufficient")))).

(** Every object of [w] is still an object in [w']. *)
Definition grows (w w' : World) : Prop :=
  forall l, is_Some (heap w !! l) -> is_Some (heap w' !! l).

(** A [revoke] callback that deletes no object. *)
Definition revoke_keeps_objects (options : Options.t) : Prop :=
  forall s w, grows w (Options.revoke options s w).

(** The payload a [sign] in the chain is handed is an object of [w]. *)
Definition signs_object (w : World) (o : operation) : Prop :=
  match o with
  | OpSign _ p => is_Some (heap w !! p)
  | _ => True
  end.

Definition is_verify (o : operation) : bool :=
  match o with
  | OpVerify _ _ => true
  | _ => false
  end.

(** The payload the token of a run holds at its end. *)
Definition claims_after (r : result JWT * World) : option obj :=
  match r with
  | (Ok j, w) => heap w !! payload j
  | (Throw _, _) => None
  end.

(** The property names every object inherits from [Object.prototype];
    the model of objects has own properties only, so statements about
    a missing key are made for keys outside this list. *)
Definition Object_prototype : list string :=
  [ "constructor"; "hasOwnProperty"; "isPrototypeOf"; "propertyIsEnumerable";
    "toLocaleString"; "toString"; "valueOf"; "__proto__";
    "__defineGetter__"; "__defineSetter__"; "__lookupGetter__"; "__lookupSetter__" ].

(** Options with [stales: 0]. *)
Definition stale_at_once : Options.t :=
  fill_in {| UserOptions.cookie := None; UserOptions.cookieOptions := None;
             UserOptions.cookies := None; UserOptions.refresh := None;
             UserOptions.reqProperty := None; UserOptions.revoke := None;
             UserOptions.signOptions := None; UserOptions.stales := Some 0;
             UserOptions.verify := None; UserOptions.verifyOptions := None |}.

(** ** Running the methods *)

Lemma fresh_loc_free w : heap w !! fresh_loc w = None.
Proof.
  unfold fresh_loc. apply (not_elem_of_dom (D:=gset loc)).
  apply (is_fresh (dom (heap w))).
Qed.

Lemma allocated_lookup o w : heap (allocated o w) !! fresh_loc w = Some o.
Proof. apply lookup_insert_eq. Qed.

Lemma or_empty_Some s : or_empty (Some s) = s.
Proof. destruct s; reflexivity. Qed.

Lemma new_JWT_run secret' options' w :
  new_JWT secret' options' w
  = (Ok (constructed (fresh_loc w) secret' options'), allocated ∅ w).
Proof. reflexivity. Qed.

Section Runs.

Variable S2N : string -> number.
Variable codec : utils.t.

Lemma sign_run (now : Z) (p : loc) (this : JWT) (w : World) (o : obj) :
  heap w !! p = Some o ->
  sign codec now p this w
  = (Ok {| token := utils.sign codec (stamped now (options this) o) (secret this)
                      (Options.signOptions (options this));
           payload := p; secret := secret this; options := options this;
           valid := true; expired := false; stale := false |},
     {| heap := <[p := stamped now (options this) o]> (heap w);
        trace := trace w ++ [Call "sign"] |}).
Proof.
  intros Hp. unfold sign, bind, emit, set_property, load, ret. cbn [heap trace].
  rewrite Hp. cbn [heap trace set_payload payload]. rewrite lookup_insert_eq.
  reflexivity.
Qed.

Lemma resign_run (now : Z) (this : JWT) (w : World) (o : obj) :
  heap w !! payload this = Some o ->
  resign codec now this w
  = (Ok {| token := utils.sign codec (stamped now (options this) o) (secret this)
                      (Options.signOptions (options this));
           payload := payload this; secret := secret this; options := options this;
           valid := true; expired := false; stale := false |},
     {| heap := <[payload this := stamped now (options this) o]> (heap w);
        trace := trace w ++ [Call "resign"; Call "sign"] |}).
Proof.
  intros Hp. unfold resign.
  unfold bind at 1, emit. fold (logged (Call "resign") w).
  rewrite (sign_run now (payload this) this (logged (Call "resign") w) o Hp).
  cbn [heap trace logged]. by rewrite <- app_assoc.
Qed.

Lemma verify_codec_run (tok : option string) (this : JWT) (w : World) :
  exists j1 claims, codec_step S2N codec tok this w j1 claims.
Proof.
  unfold codec_step, verify_codec, try_catch, bind, lift, alloc, ret.
  fold (or_empty tok). simpl.
  destruct (utils.verify codec (or_empty tok) (secret this) _) as [o|err]; simpl.
  - eexists _, o. repeat split.
  - eexists _, _. split; [reflexivity|]. unfold expired_error.
    destruct (loose_eq S2N (get err "name") _); repeat split.
Qed.

(** [verify] returns: its second and third step change [valid] and
    [stale] of what the first step left, and nothing else. *)
Lemma verify_run (now : Z) (tok : option string) (this : JWT) (w : World) :
  exists j1 claims j',
    codec_step S2N codec tok this (logged (Call "verify") w) j1 claims
    /\ verify S2N codec now tok this w = (Ok j', allocated claims (logged (Call "verify") w))
    /\ heap (allocated claims (logged (Call "verify") w)) !! payload j' = Some claims
    /\ token j' = token j1 /\ payload j' = payload j1 /\ secret j' = secret j1
    /\ options j' = options j1 /\ expired j' = expired j1
    /\ valid j' = valid j1
                  && Options.verify (options j1) (snapshot j1)
                       (heap (allocated claims (logged (Call "verify") w)))
    /\ stale j' = stale j1
                  && negb (truthy (get claims "stales")
                           && le S2N (VNumber (Num now)) (get claims "stales")).
Proof.
  destruct (verify_codec_run tok this (logged (Call "verify") w))
    as (j1 & claims & Hstep).
  exists j1, claims. pose proof Hstep as (Hrun & _ & Hp & _).
  unfold verify, bind, emit. fold (logged (Call "verify") w). rewrite Hrun.
  unfold verify_options, verify_stales, bind, get_heap, load, ret. cbn [heap].
  set (w1 := allocated claims (logged (Call "verify") w)).
  set (ok := Options.verify (options j1) (snapshot j1) (heap w1)).
  set (fresh_now := truthy (get claims "stales")
                    && le S2N (VNumber (Num now)) (get claims "stales")).
  assert (Hl : heap w1 !! payload j1 = Some claims)
    by (rewrite Hp; apply allocated_lookup).
  destruct (valid j1) eqn:Hv, ok eqn:Hok; cbn [andb negb set_valid payload];
    rewrite Hl; fold fresh_now; destruct fresh_now; eexists;
    (split; [exact Hstep|]); (split; [reflexivity|]);
    cbn [set_stale set_valid payload token secret options expired valid stale];
    rewrite ?Hv, ?andb_true_r, ?andb_false_r; repeat split; assumption.
Qed.

End Runs.

(** ** The [stale] flag after [verify] *)

Lemma le_numbers (S2N : string -> number) (now z : Z) :
  le S2N (VNumber (Num now)) (VNumber (Num z)) = true <-> now <= z.
Proof.
  unfold le, abstract_lt, num_lt, to_number.
  destruct (z <? now) eqn:E.
  - apply Z.ltb_lt in E. split; [discriminate|lia].
  - apply Z.ltb_ge in E. split; [intros _; exact E|reflexivity].
Qed.

(** C2, as the code has it: on a token whose [stale] flag is [true], as
    the constructor leaves it, [verify] returns, and afterwards [stale]
    is [false] exactly when the [stales] claim of the decoded payload is
    truthy and the clock read by this call is less than or EQUAL to it;
    for a numeric claim [z] that is [z <> 0] and [now <= z].  Without a
    [stales] claim the flag stays [true]. *)
Theorem verify_stale_flag (S2N : string -> number) (codec : utils.t)
    (now : Z) (tok : option string) (this : JWT) (w : World) :
  stale this = true ->
  exists j' w' claims,
    verify S2N codec now tok this w = (Ok j', w')
    /\ heap w' !! payload j' = Some claims
    /\ (stale j' = false <->
          truthy (get claims "stales") = true
          /\ le S2N (VNumber (Num now)) (get claims "stales") = true)
    /\ (forall z, get claims "stales" = VNumber (Num z) ->
          (stale j' = false <-> z <> 0 /\ now <= z))
    /\ (claims !! "stales" = None -> stale j' = true).
Proof.
  intros Hstale.
  destruct (verify_run S2N codec now tok this w)
    as (j1 & claims & j' & Hstep & Hrun & Hl & _ & _ & _ & _ & _ & _ & Hs).
  destruct Hstep as (_ & _ & _ & _ & _ & Hs1 & _).
  rewrite Hs1, Hstale in Hs. cbn [andb] in Hs.
  exists j', (allocated claims (logged (Call "verify") w)), claims.
  split; [exact Hrun|]. split; [exact Hl|].
  assert (Hiff : stale j' = false <->
                 truthy (get claims "stales") = true
                 /\ le S2N (VNumber (Num now)) (get claims "stales") = true).
  { rewrite Hs, negb_false_iff. apply andb_true_iff. }
  split; [exact Hiff|]. split.
  - intros z Hz. rewrite Hiff, Hz, le_numbers. cbn [truthy].
    rewrite negb_true_iff, Z.eqb_neq. reflexivity.
  - intros Hnone. rewrite Hs. unfold get. rewrite Hnone. reflexivity.
Qed.

Lemma verify_stale_flag_witness :
  stale (constructed 0%nat "secret" defaults) = true
  /\ exists j' w' claims,
       verify decimal Stub.jsonwebtoken 1000000 (Some "good")
         (constructed 0%nat "secret" defaults) Stub.world0 = (Ok j', w')
       /\ heap w' !! payload j' = Some claims
       /\ (stale j' = false <->
             truthy (get claims "stales") = true
             /\ le decimal (VNumber (Num 1000000)) (get claims "stales") = true)
       /\ (forall z, get claims "stales" = VNumber (Num z) ->
             (stale j' = false <-> z <> 0 /\ 1000000 <= z))
       /\ (claims !! "stales" = None -> stale j' = true).
Proof.
  split; [reflexivity|].
  apply (verify_stale_flag decimal Stub.jsonwebtoken 1000000 (Some "good")
           (constructed 0%nat "secret" defaults) Stub.world0).
  reflexivity.
Defined.

(** C2 as stated fails when the [stales] claim EQUALS the clock: the
    token ["good"] carries [stales = 1900000], and a new token that
    verifies it at time [1900000] is not stale. *)
Lemma verify_stale_at_equal_time :
  utils.verify Stub.jsonwebtoken "good" "secret" (Options.verifyOptions defaults)
    = Ok Stub.claims0
  /\ get Stub.claims0 "stales" = VNumber (Num 1900000)
  /\ stale <$> returned ((let* jwt := new_JWT "secret" defaults in
                          verify decimal Stub.jsonwebtoken 1900000 (Some "good") jwt)
                           Stub.world0)
     = Some false.
Proof. repeat split. Qed.

(** ** [verify] on a token that is used again *)

(** C4 fails on the code: [verify] never clears [valid].  A token that
    was signed and then verifies a malformed string, or a string whose
    [exp] has passed, comes out of the [catch] and of [verify] with
    [valid = true], where the codec's exception should leave it
    [false]. *)
Theorem verify_reused_keeps_valid :
  throws (utils.verify Stub.jsonwebtoken "garbage" "secret" (Options.verifyOptions defaults))
  = true
  /\ (fun j => (valid j, expired j))
       <$> returned ((let* p := alloc {[ "admin" := VBool true ]} in
                      let* jwt := new_JWT "secret" defaults in
                      let* jwt := sign Stub.jsonwebtoken 1000000 p jwt in
                      verify decimal Stub.jsonwebtoken 1000000 (Some "garbage") jwt)
                       Stub.world0)
     = Some (true, false)
  /\ throws (utils.verify Stub.jsonwebtoken "expired" "secret" (Options.verifyOptions defaults))
     = true
  /\ valid
       <$> returned ((let* p := alloc {[ "admin" := VBool true ]} in
                      let* jwt := new_JWT "secret" defaults in
                      let* jwt := sign Stub.jsonwebtoken 1000000 p jwt in
                      verify decimal Stub.jsonwebtoken 1000000 (Some "expired") jwt)
                       Stub.world0)
     = Some true.
Proof. repeat split. Qed.

(** ** Signing, then verifying *)

(** C1, as the code has it.  [sign] stamps the payload [C] and encodes
    it.  When the codec accepts the token it made and gives back the
    signed claims, with or without claims of its own ([decoded]), the
    [verify] function of the options accepts the token, the stamp is
    not 0 and the clock read by [verify] is not past it, then [verify]
    of the token string, on any token that holds the same secret and
    options and is not marked expired (the signed one, or a new one),
    ends with [valid = true], [expired = false], [stale = false] and
    the claims the codec gave back: they contain every claim of [C]
    and [stales = now + options.stales]. *)
Theorem sign_verify_round_trip (S2N : string -> number) (codec : utils.t)
    (now now' : Z) (p : loc) (C decoded : obj) (this : JWT) (w : World) :
  let claims := stamped now (options this) C in
  let tok := utils.sign codec claims (secret this) (Options.signOptions (options this)) in
  heap w !! p = Some C ->
  utils.verify codec tok (secret this) (Options.verifyOptions (options this)) = Ok decoded ->
  claims ⊆ decoded ->
  (forall s h, snap_token s = tok -> h !! snap_payload s = Some decoded ->
               Options.verify (options this) s h = true) ->
  now + Options.stales (options this) <> 0 ->
  now' <= now + Options.stales (options this) ->
  exists j1 w1,
    sign codec now p this w = (Ok j1, w1)
    /\ token j1 = tok /\ valid j1 = true /\ expired j1 = false /\ stale j1 = false
    /\ heap w1 !! payload j1 = Some claims
    /\ forall that wv,
         secret that = secret this -> options that = options this ->
         expired that = false ->
         exists j2 w2,
           verify S2N codec now' (Some (token j1)) that wv = (Ok j2, w2)
           /\ valid j2 = true /\ expired j2 = false /\ stale j2 = false
           /\ heap w2 !! payload j2 = Some decoded
           /\ get decoded "stales" = VNumber (Num (now + Options.stales (options this)))
           /\ (forall k v, k <> "stales" -> C !! k = Some v -> decoded !! k = Some v)
           /\ (decoded = claims -> forall k, k <> "stales" -> decoded !! k = C !! k).
Proof.
  intros claims tok Hp Hcodec Hsub Haccept Hstamp Hwindow.
  eexists _, _. split; [apply (sign_run codec now p this w C Hp)|].
  cbn [token valid expired stale payload heap].
  repeat (split; [reflexivity || apply lookup_insert_eq|]).
  intros that wv Hsecret Hoptions Hexpired.
  destruct (verify_run S2N codec now' (Some tok) that wv)
    as (j1 & claims' & j2 & Hstep & Hrun & Hl & Ht & Hpl & _ & _ & He & Hv & Hs).
  destruct Hstep as (_ & Ht1 & _ & _ & Ho1 & _ & Hcase).
  rewrite or_empty_Some, Hsecret, Hoptions in Hcase. fold tok claims in Hcase.
  rewrite Hcodec in Hcase. destruct Hcase as (-> & Hv1 & He1).
  assert (Hstales : get decoded "stales"
                    = VNumber (Num (now + Options.stales (options this)))).
  { unfold get. erewrite lookup_weaken; [reflexivity| |exact Hsub].
    unfold claims, stamped. apply lookup_insert_eq. }
  exists j2, (allocated decoded (logged (Call "verify") wv)).
  fold tok. split; [exact Hrun|]. split.
  { rewrite Hv, Hv1, Ho1, Hoptions. cbn [andb]. apply Haccept.
    - cbn [snapshot snap_token]. rewrite Ht1. apply or_empty_Some.
    - cbn [snapshot snap_payload]. rewrite <- Hpl. exact Hl. }
  split; [congruence|]. split.
  { rewrite Hs, Hstales.
    replace (le S2N (VNumber (Num now')) (VNumber (Num (now + Options.stales (options this)))))
      with true by (symmetry; apply le_numbers; lia).
    cbn [truthy].
    replace (now + Options.stales (options this) =? 0) with false
      by (symmetry; apply Z.eqb_neq; lia).
    apply andb_false_r. }
  split; [exact Hl|]. split; [exact Hstales|]. split.
  - intros k v Hk HC. apply (lookup_weaken claims); [|exact Hsub].
    unfold claims, stamped. by rewrite lookup_insert_ne.
  - intros -> k Hk. unfold claims, stamped. by rewrite lookup_insert_ne.
Qed.

Lemma sign_verify_round_trip_witness :
  let C : obj := {[ "admin" := VBool true ]} in
  let w := {| heap := {[ 0%nat := C ]}; trace := [] |} in
  let this := constructed 1%nat "secret" defaults in
  exists j1 w1,
    sign Registered.jsonwebtoken 1000000 0%nat this w = (Ok j1, w1)
    /\ token j1 = "good" /\ valid j1 = true /\ expired j1 = false /\ stale j1 = false
    /\ heap w1 !! payload j1 = Some (stamped 1000000 defaults C)
    /\ forall that wv,
         secret that = "secret" -> options that = defaults -> expired that = false ->
         exists j2 w2,
           verify decimal Registered.jsonwebtoken 1000500 (Some (token j1)) that wv
             = (Ok j2, w2)
           /\ valid j2 = true /\ expired j2 = false /\ stale j2 = false
           /\ heap w2 !! payload j2 = Some Registered.issued
           /\ get Registered.issued "stales" = VNumber (Num (1000000 + 900000))
           /\ (forall k v, k <> "stales" -> C !! k = Some v ->
                 Registered.issued !! k = Some v)
           /\ (Registered.issued = stamped 1000000 defaults C ->
               forall k, k <> "stales" -> Registered.issued !! k = C !! k).
Proof.
  intros C w this.
  apply (sign_verify_round_trip decimal Registered.jsonwebtoken 1000000 1000500 0%nat C
           Registered.issued this w).
  - reflexivity.
  - reflexivity.
  - apply insert_subseteq. reflexivity.
  - reflexivity.
  - simpl. lia.
  - simpl. lia.
Defined.

(** C1 as stated fails in four ways, each on a codec that behaves as
    [jsonwebtoken] does.  Under options whose [verify] function turns
    tokens down the verified token ends with [valid = false].  The
    codec adds [iat], so the verified claims are not [C] plus
    [stales].  A payload whose [exp] has passed signs to a token that
    the codec rejects: [valid = false], [expired = true].  And a stamp
    of 0 (clock 0, [stales: 0]) reads as no stamp: the new token stays
    stale. *)
Lemma sign_verify_round_trip_fails :
  let C : obj := {[ "admin" := VBool true ]} in
  let round_trip codec options' (C : obj) now now' :=
    (let* p := alloc C in
     let* signed := new_JWT "secret" options' in
     let* signed := sign codec now p signed in
     let* jwt := new_JWT "secret" options' in
     verify decimal codec now' (Some (token signed)) jwt) Stub.world0 in
  valid <$> returned (round_trip Stub.jsonwebtoken rejecting C 1000000 1000500) = Some false
  /\ (claims_after (round_trip Registered.jsonwebtoken defaults C 1000000 1000500)
        = Some Registered.issued
      /\ Registered.issued !! "iat" = Some (VNumber (Num 1000))
      /\ stamped 1000000 defaults C !! "iat" = None)
  /\ (fun j => (valid j, expired j))
       <$> returned (round_trip Registered.jsonwebtoken defaults
                       {[ "admin" := VBool true; "exp" := VNumber (Num 1) ]}
                       1000000 1000500)
     = Some (false, true)
  /\ (stamped 0 stale_at_once C !! "stales" = Some (VNumber (Num 0))
      /\ stale <$> returned (round_trip Registered.jsonwebtoken stale_at_once C 0 0)
         = Some true).
Proof. repeat split. Qed.

(** ** [sign] and the caller's object *)

(** C10: [sign] writes [stales] into the object the caller passed and
    keeps a reference to that very object.  The caller's reference [p]
    reads the stamp; a property the caller sets afterwards is read
    through the token's payload; and the stamp that [resign] writes is
    read through the caller's reference. *)
Theorem sign_aliases_payload (codec : utils.t) (now : Z) (p : loc) (C : obj)
    (this : JWT) (w : World) :
  heap w !! p = Some C ->
  exists j1 w1,
    sign codec now p this w = (Ok j1, w1)
    /\ payload j1 = p
    /\ load p w1 = (Ok (stamped now (options this) C), w1)
    /\ (forall k v, exists w2,
          set_property p k v w1 = (Ok tt, w2)
          /\ load (payload j1) w2 = (Ok (<[k := v]> (stamped now (options this) C)), w2))
    /\ (forall now2, exists j2 w2 o,
          resign codec now2 j1 w1 = (Ok j2, w2)
          /\ payload j2 = p
          /\ load p w2 = (Ok o, w2)
          /\ get o "stales" = VNumber (Num (now2 + Options.stales (options this)))).
Proof.
  intros Hp. eexists _, _. split; [apply (sign_run codec now p this w C Hp)|].
  cbn [payload]. split; [reflexivity|].
  split; [unfold load; cbn [heap]; by rewrite lookup_insert_eq|].
  split.
  - intros k v. eexists. unfold set_property, load. cbn [heap trace].
    rewrite lookup_insert_eq. split; [reflexivity|].
    cbn [heap]. by rewrite lookup_insert_eq.
  - intros now2. eexists _, _, _. split.
    + apply resign_run. cbn [payload heap]. apply lookup_insert_eq.
    + cbn [payload options heap]. split; [reflexivity|].
      unfold load. cbn [heap]. rewrite lookup_insert_eq.
      split; [reflexivity|]. unfold get, stamped. by rewrite lookup_insert_eq.
Qed.

Lemma sign_aliases_payload_witness :
  let C : obj := {[ "admin" := VBool true ]} in
  let w := {| heap := {[ 0%nat := C ]}; trace := [] |} in
  let this := constructed 1%nat "secret" defaults in
  exists j1 w1,
    sign Stub.jsonwebtoken 1000000 0%nat this w = (Ok j1, w1)
    /\ payload j1 = 0%nat
    /\ load 0%nat w1 = (Ok (stamped 1000000 defaults C), w1)
    /\ (forall k v, exists w2,
          set_property 0%nat k v w1 = (Ok tt, w2)
          /\ load (payload j1) w2 = (Ok (<[k := v]> (stamped 1000000 defaults C)), w2))
    /\ (forall now2, exists j2 w2 o,
          resign Stub.jsonwebtoken now2 j1 w1 = (Ok j2, w2)
          /\ payload j2 = 0%nat
          /\ load 0%nat w2 = (Ok o, w2)
          /\ get o "stales" = VNumber (Num (now2 + 900000))).
Proof.
  intros C w this.
  apply (sign_aliases_payload Stub.jsonwebtoken 1000000 0%nat C this w).
  reflexivity.
Defined.

(** ** The silent refresh of [init]'s middleware *)

Lemma calls_app (m : string) (t t' : list event) :
  calls m (t ++ t') = (calls m t + calls m t')%nat.
Proof. unfold calls. by rewrite List.filter_app, length_app. Qed.

Lemma store_run (this : JWT) (w : World) :
  store this w
  = (Ok this,
     {| heap := heap w;
        trace := trace w ++ [Call "store"]
                 ++ (if Options.cookies (options this)
                     then [ResCookie (Options.cookie (options this)) (token this)
                             (Options.cookieOptions (options this))]
                     else []) |}).
Proof.
  unfold store, bind, emit, ret. cbn [heap trace].
  destruct (Options.cookies (options this)); cbn [heap trace].
  - by rewrite <- app_assoc.
  - by rewrite app_nil_r.
Qed.

(** C6: the middleware returns, with a token [j'] attached to the
    request.  Let [jv] be the token as [verify] left it.  When [jv] is
    valid and not stale and [options.refresh] is set, the middleware
    goes on with exactly [resign] (which calls [sign]) and then [store]
    (which sets the cookie when cookies are in use): one call of each.
    Otherwise it makes no further call and attaches [jv] as it is.  A
    request without a token is verified as the empty string, so it is
    not refreshed when the codec rejects that. *)
Theorem init_middleware_refresh (S2N : string -> number) (codec : utils.t)
    (secret' : Request.t -> string) (opts : Options.t) (now now' : Z)
    (req : Request.t) (w : World) :
  exists jv wv req' w' j',
    (let* jwt := new_JWT (secret' req) opts in
     verify S2N codec now (extract opts req) jwt) w = (Ok jv, wv)
    /\ init_middleware S2N codec secret' opts now now' req w = (Ok req', w')
    /\ Request.jwt req' = Some j'
    /\ (let refreshed := valid jv && negb (stale jv) && Options.refresh opts in
        trace w' = (trace wv ++
                    if refreshed
                    then [Call "resign"; Call "sign"; Call "store"]
                         ++ (if Options.cookies opts
                             then [ResCookie (Options.cookie opts) (token j')
                                     (Options.cookieOptions opts)]
                             else [])
                    else [])%list
        /\ calls "resign" (trace w')
           = (calls "resign" (trace w) + if refreshed then 1 else 0)%nat
        /\ calls "store" (trace w')
           = (calls "store" (trace w) + if refreshed then 1 else 0)%nat
        /\ (refreshed = false -> j' = jv /\ w' = wv)
        /\ (refreshed = true -> valid j' = true /\ expired j' = false /\ stale j' = false))
    /\ (extract opts req = None ->
        throws (utils.verify codec "" (secret' req) (Options.verifyOptions opts)) = true ->
        valid jv = false).
Proof.
  set (this := constructed (fresh_loc w) (secret' req) opts).
  destruct (verify_run S2N codec now (extract opts req) this (allocated ∅ w))
    as (j1 & claims & jv & Hstep & Hrun & Hl & _ & _ & _ & Ho & _ & Hv & _).
  destruct Hstep as (_ & _ & _ & _ & Ho1 & _ & Hcase).
  rewrite Ho1 in Ho. cbn [options this constructed] in Ho.
  set (wv := allocated claims (logged (Call "verify") (allocated ∅ w))) in *.
  assert (Htrace : trace wv = (trace w ++ [Call "verify"])%list) by reflexivity.
  assert (Habsent : extract opts req = None ->
                    throws (utils.verify codec "" (secret' req) (Options.verifyOptions opts)) = true ->
                    valid jv = false).
  { intros Hnone Hthrows. rewrite Hnone in Hcase.
    cbn [or_empty secret options this constructed] in Hcase.
    destruct (utils.verify codec "" (secret' req) _); [discriminate|].
    destruct Hcase as (_ & Hv1 & _). rewrite Hv, Hv1. reflexivity. }
  assert (Hfirst : (let* jwt := new_JWT (secret' req) opts in
                    verify S2N codec now (extract opts req) jwt) w = (Ok jv, wv))
    by (unfold bind; rewrite new_JWT_run; exact Hrun).
  assert (Hmw : init_middleware S2N codec secret' opts now now' req w
                = (let* jwt := (if valid jv && negb (stale jv) && Options.refresh opts
                                then let* jwt := resign codec now' jv in store jwt
                                else ret jv) in
                   ret (set_jwt jwt req)) wv).
  { unfold init_middleware. unfold bind at 1. rewrite new_JWT_run. cbv beta iota.
    fold this. unfold bind at 1. rewrite Hrun. cbv beta iota. by rewrite Ho. }
  rewrite Hmw. clear Hmw.
  destruct (valid jv && negb (stale jv) && Options.refresh opts) eqn:Hrefresh.
  - unfold bind. cbv beta.
    rewrite (resign_run codec now' jv wv claims Hl). cbv beta iota.
    rewrite store_run. unfold ret.
    eexists jv, wv, _, _, _.
    split; [exact Hfirst|].
    split; [reflexivity|]. split; [reflexivity|].
    cbn [trace token options valid expired stale]. rewrite Ho, Hrefresh.
    split; [|exact Habsent].
    split; [by rewrite <- app_assoc|].
    rewrite Htrace, !calls_app. cbn.
    destruct (Options.cookies opts); cbn; (split; [lia|]); (split; [lia|]);
      (split; [discriminate|]); intros _; repeat split.
  - eexists jv, wv, _, wv, jv.
    split; [exact Hfirst|].
    split; [reflexivity|]. split; [reflexivity|].
    rewrite Hrefresh. cbv zeta iota.
    split; [|exact Habsent].
    rewrite app_nil_r. split; [reflexivity|].
    rewrite Htrace, !calls_app. cbn.
    split; [lia|]. split; [lia|]. split; [|discriminate]. intros _. by split.
Qed.

Lemma init_middleware_refresh_witness :
  let req := {| Request.cookies := {[ "jwt-express" := "good" ]};
                Request.authorization := None; Request.jwt := None |} in
  exists jv wv req' w' j',
    (let* jwt := new_JWT "secret" defaults in
     verify decimal Stub.jsonwebtoken 1000000 (extract defaults req) jwt) Stub.world0
      = (Ok jv, wv)
    /\ init_middleware decimal Stub.jsonwebtoken (fun _ => "secret") defaults
         1000000 1000001 req Stub.world0 = (Ok req', w')
    /\ Request.jwt req' = Some j'
    /\ (let refreshed := valid jv && negb (stale jv) && Options.refresh defaults in
        trace w' = (trace wv ++
                    if refreshed
                    then [Call "resign"; Call "sign"; Call "store"]
                         ++ (if Options.cookies defaults
                             then [ResCookie (Options.cookie defaults) (token j')
                                     (Options.cookieOptions defaults)]
                             else [])
                    else [])%list
        /\ calls "resign" (trace w')
           = (calls "resign" (trace Stub.world0) + if refreshed then 1 else 0)%nat
        /\ calls "store" (trace w')
           = (calls "store" (trace Stub.world0) + if refreshed then 1 else 0)%nat
        /\ (refreshed = false -> j' = jv /\ w' = wv)
        /\ (refreshed = true -> valid j' = true /\ expired j' = false /\ stale j' = false))
    /\ (extract defaults req = None ->
        throws (utils.verify Stub.jsonwebtoken "" "secret" (Options.verifyOptions defaults))
          = true ->
        valid jv = false).
Proof.
  intros req.
  exact (init_middleware_refresh decimal Stub.jsonwebtoken (fun _ => "secret") defaults
           1000000 1000001 req Stub.world0).
Defined.

(** ** [valid] and [expired] on a token that is used again *)

(** C3 fails on the code: [verify] sets [valid] and [expired] but never
    clears them.  A token that verified an expired string and then a
    good one, and a token that was signed and then verified an expired
    string, both end with [valid = true] and [expired = true]. *)
Theorem verify_reused_valid_and_expired :
  (fun j => (valid j, expired j))
    <$> returned ((let* jwt := new_JWT "secret" defaults in
                   let* jwt := verify decimal Stub.jsonwebtoken 1000000 (Some "expired") jwt in
                   verify decimal Stub.jsonwebtoken 1000000 (Some "good") jwt) Stub.world0)
  = Some (true, true)
  /\ (fun j => (valid j, expired j))
       <$> returned ((let* p := alloc {[ "admin" := VBool true ]} in
                      let* jwt := new_JWT "secret" defaults in
                      let* jwt := sign Stub.jsonwebtoken 1000000 p jwt in
                      verify decimal Stub.jsonwebtoken 1000000 (Some "expired") jwt)
                       Stub.world0)
     = Some (true, true).
Proof. split; reflexivity. Qed.

(** ** The guards *)

(** C5: [active] passes exactly when the request has a token that is
    valid and not stale.  Without a token, or with one that is not
    valid (stale or not), it fails with "JWT is invalid"; with a valid
    token that is stale it fails with "JWT is stale".  A missing token
    is read as the empty object, so there is no case in which the guard
    has no answer. *)
Theorem active_guard (req : Request.t) :
  (active req = Next <->
     exists j, Request.jwt req = Some j /\ valid j = true /\ stale j = false)
  /\ active req =
       match Request.jwt req with
       | None => NextError (JWTExpressError "JWT is invalid")
       | Some j =>
           if negb (valid j) then NextError (JWTExpressError "JWT is invalid")
           else if stale j then NextError (JWTExpressError "JWT is stale")
           else Next
       end.
Proof.
  assert (Heq : active req =
       match Request.jwt req with
       | None => NextError (JWTExpressError "JWT is invalid")
       | Some j =>
           if negb (valid j) then NextError (JWTExpressError "JWT is invalid")
           else if stale j then NextError (JWTExpressError "JWT is stale")
           else Next
       end).
  { unfold active. destruct (Request.jwt req) as [j|]; simpl; reflexivity. }
  split; [|exact Heq].
  rewrite Heq. destruct (Request.jwt req) as [j|].
  - destruct (valid j) eqn:Hv, (stale j) eqn:Hs; simpl; split;
      try discriminate; try (intros (j' & [= <-] & ? & ?); congruence).
    intros _. exists j. auto.
  - split; [discriminate|]. intros (j & ? & _). discriminate.
Qed.

(** ** The operator check of [require] *)

Lemma truthy_key (key : string) : key <> "" -> truthy (VString key) = true.
Proof. intros H. simpl. destruct key; [congruence|reflexivity]. Qed.

Lemma strict_eq_sound x y : strict_eq x y = true -> x = y.
Proof.
  destruct x as [| |a|[|a]|a], y as [| |b|[|b]|b]; simpl; try discriminate; try reflexivity.
  - intros H. apply Bool.eqb_prop in H. congruence.
  - intros H. apply Z.eqb_eq in H. congruence.
  - intros H. apply String.eqb_eq in H. congruence.
Qed.

Lemma indexOf_from_found i l x :
  0 <= i -> x ∈ l -> (forall y, y ∈ l -> strict_eq y y = true) -> 0 <= indexOf_from i l x.
Proof.
  intros Hi Hin. revert i Hi. induction l as [|y r IH]; intros i Hi Hrefl.
  - inversion Hin.
  - simpl. destruct (strict_eq y x) eqn:E; [lia|].
    apply IH; [|lia|].
    + apply elem_of_cons in Hin as [->|]; [|assumption].
      rewrite Hrefl in E; [discriminate|]. left.
    + intros z Hz. apply Hrefl. by right.
Qed.

Lemma indexOf_from_missing i l x : x ∉ l -> indexOf_from i l x = -1.
Proof.
  revert i. induction l as [|y r IH]; intros i Hx; [reflexivity|].
  simpl. destruct (strict_eq y x) eqn:E.
  - apply strict_eq_sound in E. subst. exfalso. apply Hx. left.
  - apply IH. intros ?. apply Hx. by right.
Qed.

Lemma operators_refl y : y ∈ operators -> strict_eq y y = true.
Proof.
  unfold operators. simpl. intros H.
  repeat (apply elem_of_cons in H as [->|H]; [reflexivity|]).
  inversion H.
Qed.

Lemma require_without_key (S2N : string -> number) (operator value' : value) :
  require S2N "" operator value' = Throw (ReferenceError "key must be defined").
Proof. reflexivity. Qed.

Lemma require_rejects (S2N : string -> number) (key : string) (operator value' : value) :
  key <> "" -> truthy operator = true -> operator ∉ operators ->
  require S2N key operator value'
  = Throw (JWTExpressError ("Invalid operator: " ++ to_string operator)).
Proof.
  intros Hk Ht Hn. unfold require. rewrite (truthy_key _ Hk), Ht. simpl.
  unfold indexOf. rewrite (indexOf_from_missing _ _ _ Hn). reflexivity.
Qed.

Lemma require_accepts (S2N : string -> number) (key : string) (operator value' : value) :
  key <> "" -> truthy operator = false \/ operator ∈ operators ->
  require S2N key operator value' = Ok (require_middleware S2N key operator value').
Proof.
  intros Hk Hop. unfold require. rewrite (truthy_key _ Hk). simpl.
  destruct Hop as [Hf|Hin]; [by rewrite Hf|].
  unfold indexOf.
  pose proof (indexOf_from_found 0 _ _ (Z.le_refl 0) Hin operators_refl) as Hge.
  replace (indexOf_from 0 operators operator =? -1) with false
    by (symmetry; apply Z.eqb_neq; lia).
  by rewrite andb_false_r.
Qed.

(** C7, as the code has it: [require] throws when it is called, before
    any request.  Without a key it throws a [ReferenceError], whatever
    the operator.  With a key, a TRUTHY operator that is none of the
    eight makes it throw "Invalid operator"; an operator that is one of
    the eight, or falsy (left out, or the empty string), gives the
    middleware. *)
Theorem require_operator_check (S2N : string -> number) (key : string)
    (operator value' : value) :
  (key = "" -> require S2N key operator value' = Throw (ReferenceError "key must be defined"))
  /\ (key <> "" -> truthy operator = true -> operator ∉ operators ->
      require S2N key operator value'
      = Throw (JWTExpressError ("Invalid operator: " ++ to_string operator)))
  /\ (key <> "" -> truthy operator = false \/ operator ∈ operators ->
      require S2N key operator value' = Ok (require_middleware S2N key operator value')).
Proof.
  split; [|split].
  - intros ->. apply require_without_key.
  - apply require_rejects.
  - apply require_accepts.
Qed.

Lemma require_operator_check_witness :
  require decimal "level" (VString "=>") (VNumber (Num 3))
    = Throw (JWTExpressError "Invalid operator: =>")
  /\ require decimal "level" (VString ">") (VNumber (Num 3))
     = Ok (require_middleware decimal "level" (VString ">") (VNumber (Num 3)))
  /\ require decimal "level" VUndefined VUndefined
     = Ok (require_middleware decimal "level" VUndefined VUndefined).
Proof.
  split; [|split].
  - apply (require_operator_check decimal "level" (VString "=>") (VNumber (Num 3))).
    + discriminate.
    + reflexivity.
    + unfold operators. simpl. intros H.
      repeat (apply elem_of_cons in H as [[=]|H]). inversion H.
  - apply (require_operator_check decimal "level" (VString ">") (VNumber (Num 3))).
    + discriminate.
    + right. unfold operators. simpl. do 6 right. left.
  - apply (require_operator_check decimal "level" VUndefined VUndefined).
    + discriminate.
    + left. reflexivity.
Defined.

(** C7 as stated fails twice: the empty string is none of the eight
    operators and [require] does not throw on it; ["=="] is one of the
    eight and [require] throws when the key is empty. *)
Lemma require_operator_counterexample :
  (VString "" ∉ operators)
  /\ throws (require decimal "admin" (VString "") (VNumber (Num 5))) = false
  /\ (VString "==" ∈ operators)
  /\ throws (require decimal "" (VString "==") (VBool true)) = true.
Proof.
  split; [|split; [reflexivity|split; [|reflexivity]]].
  - unfold operators. simpl. intros H.
    repeat (apply elem_of_cons in H as [[=]|H]). inversion H.
  - left.
Qed.

(** ** [require] with only a key *)

Lemma compare_default (S2N : string -> number) (data : value) :
  compare S2N data (VString "==") (VBool true) = VBool (loose_eq S2N data (VBool true)).
Proof. reflexivity. Qed.

(** C8: [require(key)] compares with ["=="] against [true].  With
    [claims] the payload of the request's token (the empty object when
    there is no token), the middleware passes when
    [claims[key] == true]; otherwise it hands on a [JWTExpressError]
    "JWT is insufficient" whose properties besides [name] and [message]
    are exactly [key], [data] (the value found), [operator] (["=="])
    and [value] ([true]).  [true] passes; [false] fails; a missing key
    or a missing token fails with [data] undefined. *)
Theorem require_key_only (S2N : string -> number) (key : string)
    (req : Request.t) (w : World) (claims : obj) :
  key <> "" ->
  claims_of w req = Some claims ->
  let data := get claims key in
  exists mw err,
    require S2N key VUndefined VUndefined = Ok mw
    /\ mw req w = (Ok (if loose_eq S2N data (VBool true) then Next else NextError err), w)
    /\ err !! "name" = Some (VString "JWTExpressError")
    /\ err !! "message" = Some (VString "JWT is insufficient")
    /\ err !! "key" = Some (VString key)
    /\ err !! "data" = Some data
    /\ err !! "operator" = Some (VString "==")
    /\ err !! "value" = Some (VBool true)
    /\ dom err = ({[ "name"; "message"; "key"; "data"; "operator"; "value" ]} : gset string)
    /\ (data = VBool true -> mw req w = (Ok Next, w))
    /\ (data = VBool false \/ data = VUndefined -> mw req w = (Ok (NextError err), w))
    /\ (claims !! key = None -> data = VUndefined)
    /\ (Request.jwt req = None -> data = VUndefined).
Proof.
  intros Hkey Hclaims data.
  set (err := <["value" := VBool true]>
                (<["operator" := VString "=="]>
                   (<["data" := data]>
                      (<["key" := VString key]> (JWTExpressError "JWT is insufficient"))))).
  assert (Hmw : require_middleware S2N key VUndefined VUndefined req w
                = (Ok (if loose_eq S2N data (VBool true) then Next else NextError err), w)).
  { unfold require_middleware, claims_of in *.
    assert (Hdata : match Request.jwt req with
                    | Some j => let* o := load (payload j) in ret (get o key)
                    | None => ret (get ∅ key)
                    end w = (Ok data, w)).
    { destruct (Request.jwt req) as [j|].
      - unfold bind, load, ret. rewrite Hclaims. reflexivity.
      - injection Hclaims as <-. reflexivity. }
    unfold bind at 1. rewrite Hdata. cbn [truthy negb].
    rewrite compare_default. cbn [truthy].
    destruct (loose_eq S2N data (VBool true)); reflexivity. }
  exists (require_middleware S2N key VUndefined VUndefined), err.
  split.
  { apply require_accepts; [exact Hkey|]. left. reflexivity. }
  split; [exact Hmw|].
  assert (Hpass : data = VBool true ->
                  require_middleware S2N key VUndefined VUndefined req w = (Ok Next, w))
    by (intros Hd; rewrite Hmw, Hd; reflexivity).
  assert (Hfail : data = VBool false \/ data = VUndefined ->
                  require_middleware S2N key VUndefined VUndefined req w
                  = (Ok (NextError err), w))
    by (intros [Hd|Hd]; rewrite Hmw, Hd; reflexivity).
  do 6 (split; [unfold err, JWTExpressError, error; by simplify_map_eq|]).
  split.
  { unfold err, JWTExpressError, error.
    rewrite !dom_insert_L, dom_singleton_L. set_solver. }
  split; [exact Hpass|]. split; [exact Hfail|].
  split.
  - intros Hnone. unfold data, get. by rewrite Hnone.
  - intros Hnone. unfold claims_of in Hclaims. rewrite Hnone in Hclaims.
    injection Hclaims as <-. reflexivity.
Qed.

Lemma require_key_only_witness :
  let req := {| Request.cookies := ∅; Request.authorization := None;
                Request.jwt := Some (constructed 0%nat "secret" defaults) |} in
  let w := {| heap := {[ 0%nat := {[ "admin" := VBool false ]} ]}; trace := [] |} in
  exists mw err,
    require decimal "admin" VUndefined VUndefined = Ok mw
    /\ mw req w = (Ok (NextError err), w)
    /\ err !! "key" = Some (VString "admin")
    /\ err !! "data" = Some (VBool false)
    /\ err !! "operator" = Some (VString "==")
    /\ err !! "value" = Some (VBool true).
Proof.
  intros req w.
  destruct (require_key_only decimal "admin" req w {[ "admin" := VBool false ]})
    as (mw & err & H1 & H2 & _ & _ & H3 & H4 & H5 & H6 & _).
  - discriminate.
  - reflexivity.
  - exists mw, err. repeat split; assumption.
Defined.

(** ** [toJSON] *)

(** C9: [toJSON] returns without changing anything, so a second call
    gives the same object; the object has the properties [token],
    [payload], [valid], [expired] and [stale], with the token's values,
    and no other; and it is the same whatever the secret and the
    options of the token are. *)
Theorem toJSON_public (this : JWT) (w : World) :
  exists out,
    toJSON this w = (Ok out, w)
    /\ toJSON this (snd (toJSON this w)) = (Ok out, w)
    /\ out.*1 = ["token"; "payload"; "valid"; "expired"; "stale"]
    /\ out = [ ("token", Prim (VString (token this)));
               ("payload", Ref (payload this));
               ("valid", Prim (VBool (valid this)));
               ("expired", Prim (VBool (expired this)));
               ("stale", Prim (VBool (stale this))) ]
    /\ forall s o w', toJSON (with_secret s o this) w' = (Ok out, w').
Proof. eexists. repeat split. Qed.

(** ** Further properties *)

(** The guard [valid()] passes exactly when the request has a valid
    token; otherwise, and without a token, it fails with "JWT is
    invalid". *)
Theorem valid_guard_spec (req : Request.t) :
  (valid_guard req = Next <-> exists j, Request.jwt req = Some j /\ valid j = true)
  /\ valid_guard req =
       match Request.jwt req with
       | Some j => if valid j then Next else NextError (JWTExpressError "JWT is invalid")
       | None => NextError (JWTExpressError "JWT is invalid")
       end.
Proof.
  unfold valid_guard. destruct (Request.jwt req) as [j|]; simpl.
  - destruct (valid j) eqn:Hv; simpl; (split; [|reflexivity]); split;
      try discriminate; try (intros (j' & [= <-] & ?); congruence).
    intros _. by exists j.
  - split; [|reflexivity]. split; [discriminate|]. intros (j & ? & _). discriminate.
Qed.

(** ** Runs of the exported functions *)

Section ExportRuns.

Variable S2N : string -> number.
Variable codec : utils.t.

Lemma verify_verified (now : Z) (tok : option string) (this : JWT) (w : World) :
  exists j1 claims j', verified S2N codec now tok this w j1 claims j'
                         (allocated claims (logged (Call "verify") w)).
Proof.
  destruct (verify_run S2N codec now tok this w) as (j1 & claims & j' & H).
  exists j1, claims, j'. unfold verified. split; [reflexivity|exact H].
Qed.

(** [init]'s middleware, step by step: the new token verifies what
    [extract] found; a valid, fresh token is signed again over its own
    payload and stored when [refresh] is set. *)
Lemma init_middleware_run (secret' : Request.t -> string) (opts : Options.t)
    (now now' : Z) (req : Request.t) (w : World) :
  exists j1 claims jv wv,
    verified S2N codec now (extract opts req)
      (constructed (fresh_loc w) (secret' req) opts) (allocated ∅ w) j1 claims jv wv
    /\ options jv = opts /\ secret jv = secret' req
    /\ payload jv = fresh_loc (allocated ∅ w)
    /\ init_middleware S2N codec secret' opts now now' req w
       = if valid jv && negb (stale jv) && Options.refresh opts
         then (Ok (set_jwt (signed codec now' claims (payload jv) jv) req),
               {| heap := <[payload jv := stamped now' opts claims]> (heap wv);
                  trace := (trace wv ++ [Call "resign"; Call "sign"; Call "store"]
                            ++ if Options.cookies opts
                               then [ResCookie (Options.cookie opts)
                                       (token (signed codec now' claims (payload jv) jv))
                                       (Options.cookieOptions opts)]
                               else [])%list |})
         else (Ok (set_jwt jv req), wv).
Proof.
  set (this := constructed (fresh_loc w) (secret' req) opts).
  destruct (verify_verified now (extract opts req) this (allocated ∅ w))
    as (j1 & claims & jv & Hver).
  exists j1, claims, jv, (allocated claims (logged (Call "verify") (allocated ∅ w))).
  split; [exact Hver|].
  destruct Hver as (_ & Hstep & Hrun & Hl & _ & Hp & Hs & Ho & _).
  destruct Hstep as (_ & _ & Hp1 & Hs1 & Ho1 & _).
  assert (Hopts : options jv = opts) by (rewrite Ho, Ho1; reflexivity).
  assert (Hsecret : secret jv = secret' req) by (rewrite Hs, Hs1; reflexivity).
  split; [exact Hopts|]. split; [exact Hsecret|].
  split; [rewrite Hp, Hp1; reflexivity|].
  unfold init_middleware. unfold bind at 1. rewrite new_JWT_run. cbv beta iota.
  fold this. unfold bind at 1. rewrite Hrun. cbv beta iota. rewrite Hopts.
  destruct (valid jv && negb (stale jv) && Options.refresh opts).
  - unfold bind. cbv beta.
    rewrite (resign_run codec now' jv _ claims Hl). cbv beta iota.
    rewrite store_run. unfold ret, signed.
    cbn [heap trace options token]. rewrite Hopts.
    rewrite <- app_assoc. reflexivity.
  - reflexivity.
Qed.

(** [res.jwt(payload)] on an object payload. *)
Lemma res_jwt_run (secret' : Request.t -> string) (opts : Options.t)
    (req : Request.t) (now : Z) (p : loc) (C : obj) (w : World) :
  heap w !! p = Some C ->
  let j := signed codec now C p (constructed (fresh_loc w) (secret' req) opts) in
  res_jwt codec secret' opts req now p w
  = (Ok j,
     {| heap := <[p := stamped now opts C]> (heap (allocated ∅ w));
        trace := (trace w ++ [Call "sign"; Call "store"]
                  ++ if Options.cookies opts
                     then [ResCookie (Options.cookie opts) (token j)
                             (Options.cookieOptions opts)]
                     else [])%list |}).
Proof.
  intros Hp j. unfold res_jwt. unfold bind at 1. rewrite new_JWT_run. cbv beta iota.
  assert (Hp' : heap (allocated ∅ w) !! p = Some C).
  { unfold allocated. cbn [heap]. rewrite lookup_insert_ne; [exact Hp|].
    intros Heq. pose proof (fresh_loc_free w) as Hf. rewrite Heq in Hf. congruence. }
  unfold bind.
  rewrite (sign_run codec now p _ (allocated ∅ w) C Hp'). cbv beta iota.
  rewrite store_run. cbn [heap trace options token constructed secret].
  unfold j, signed. cbn [options secret constructed token].
  rewrite <- app_assoc. reflexivity.
Qed.

(** [create(secret, payload)] on an object payload. *)
Lemma create_run (opts : Options.t) (secret' : Secret (option obj))
    (now : Z) (p : loc) (C : obj) (w : World) :
  secret_given (Some secret') = true ->
  heap w !! p = Some C ->
  create codec opts (Some secret') now p w
  = (Ok (signed codec now C p
           (constructed (fresh_loc w) (resolve (Some secret') (Some C)) opts)),
     {| heap := <[p := stamped now opts C]> (heap (allocated ∅ w));
        trace := (trace w ++ [Call "sign"])%list |}).
Proof.
  intros Hgiven Hp. unfold create. rewrite Hgiven. cbn [negb].
  unfold bind at 1, get_heap. cbv beta iota. rewrite Hp.
  unfold bind at 1. rewrite new_JWT_run. cbv beta iota.
  assert (Hp' : heap (allocated ∅ w) !! p = Some C).
  { unfold allocated. cbn [heap]. rewrite lookup_insert_ne; [exact Hp|].
    intros Heq. pose proof (fresh_loc_free w) as Hf. rewrite Heq in Hf. congruence. }
  rewrite (sign_run codec now p _ (allocated ∅ w) C Hp'). reflexivity.
Qed.

End ExportRuns.

(** ** The middleware of [init] and the guards behind it *)

Lemma active_set_jwt (j : JWT) (req : Request.t) :
  active (set_jwt j req) = Next <-> valid j = true /\ stale j = false.
Proof.
  unfold active. cbn [set_jwt Request.jwt flag truthy].
  destruct (valid j), (stale j); cbn; split; (discriminate || tauto || intros [? ?]; discriminate).
Qed.

Lemma valid_guard_set_jwt (j : JWT) (req : Request.t) :
  valid_guard (set_jwt j req) = Next <-> valid j = true.
Proof.
  unfold valid_guard. cbn [set_jwt Request.jwt flag truthy].
  destruct (valid j); cbn; split; (discriminate || tauto).
Qed.


(** A refresh signs the verified payload again in place: the token
    attached to the request keeps the payload object, whose [stales]
    is now the clock of the refresh plus [options.stales] and whose
    other claims are those [verify] decoded; its string is the
    encoding of exactly these claims, and in cookie mode the cookie set
    last carries that string. *)
Theorem init_middleware_restamps (S2N : string -> number) (codec : utils.t)
    (secret' : Request.t -> string) (opts : Options.t) (now now' : Z)
    (req : Request.t) (w : World) :
  exists jv wv claims req' w' j',
    (let* jwt := new_JWT (secret' req) opts in
     verify S2N codec now (extract opts req) jwt) w = (Ok jv, wv)
    /\ heap wv !! payload jv = Some claims
    /\ init_middleware S2N codec secret' opts now now' req w = (Ok req', w')
    /\ Request.jwt req' = Some j'
    /\ payload j' = payload jv
    /\ (valid jv && negb (stale jv) && Options.refresh opts = true ->
        heap w' !! payload j' = Some (stamped now' opts claims)
        /\ get (stamped now' opts claims) "stales"
           = VNumber (Num (now' + Options.stales opts))
        /\ (forall k, k <> "stales" -> stamped now' opts claims !! k = claims !! k)
        /\ token j' = utils.sign codec (stamped now' opts claims) (secret' req)
                        (Options.signOptions opts)
        /\ (Options.cookies opts = true ->
            last (trace w') = Some (ResCookie (Options.cookie opts) (token j')
                                      (Options.cookieOptions opts)))).
Proof.
  destruct (init_middleware_run S2N codec secret' opts now now' req w)
    as (j1 & claims & jv & wv & Hver & Hopts & Hsecret & _ & Hmw).
  destruct Hver as (_ & _ & Hrun & Hl & _).
  assert (Hfirst : (let* jwt := new_JWT (secret' req) opts in
                    verify S2N codec now (extract opts req) jwt) w = (Ok jv, wv))
    by (unfold bind; rewrite new_JWT_run; exact Hrun).
  exists jv, wv, claims. rewrite Hmw.
  destruct (valid jv && negb (stale jv) && Options.refresh opts) eqn:Hrefresh.
  - eexists _, _, _. split; [exact Hfirst|]. split; [exact Hl|].
    split; [reflexivity|]. split; [reflexivity|]. split; [reflexivity|].
    intros _. cbn [signed payload token heap trace].
    rewrite Hopts, Hsecret.
    split; [apply lookup_insert_eq|].
    split; [unfold get, stamped; by rewrite lookup_insert_eq|].
    split; [intros k Hk; unfold stamped; by rewrite lookup_insert_ne|].
    split; [reflexivity|].
    intros ->. rewrite !app_assoc. apply last_snoc.
  - eexists _, _, _. split; [exact Hfirst|]. split; [exact Hl|].
    split; [reflexivity|]. split; [reflexivity|]. split; [reflexivity|].
    discriminate.
Qed.

(** ** What the exported functions leave alone *)

Lemma allocated_keeps (o' : obj) (w : World) (l : loc) (o : obj) :
  heap w !! l = Some o -> heap (allocated o' w) !! l = Some o.
Proof.
  intros Hl. unfold allocated. cbn [heap]. rewrite lookup_insert_ne; [exact Hl|].
  intros Heq. pose proof (fresh_loc_free w) as Hf. rewrite Heq in Hf. congruence.
Qed.

(** Among the payload objects, the ones the heap holds, the exports
    change only what they are handed: when [init]'s middleware returns
    it has left every payload object that existed before as it was (it
    works on the object [verify] decoded), and when [res.jwt] or
    [create] returns only the payload object passed to it can have
    changed.  (What the middleware assigns on the request, the
    response and the module is no payload object and is not spoken
    of.) *)
Theorem exports_frame (S2N : string -> number) (codec : utils.t)
    (secret' : Request.t -> string) (opts : Options.t) (now now' : Z)
    (req : Request.t) (w : World) (l : loc) (o : obj) :
  heap w !! l = Some o ->
  (forall req' w',
     init_middleware S2N codec secret' opts now now' req w = (Ok req', w') ->
     heap w' !! l = Some o)
  /\ (forall p j w', l <> p ->
        res_jwt codec secret' opts req now p w = (Ok j, w') ->
        heap w' !! l = Some o)
  /\ (forall p s j w', l <> p ->
        create codec opts s now p w = (Ok j, w') ->
        heap w' !! l = Some o).
Proof.
  intros Hl.
  assert (Hsign : forall p this j w', l <> p ->
            sign codec now p this (allocated ∅ w) = (Ok j, w') ->
            heap w' !! l = Some o).
  { intros p this j w' Hne. unfold sign, bind, emit, set_property, load, ret.
    cbn [heap trace].
    destruct (heap (allocated ∅ w) !! p) as [C|] eqn:Hp; [|discriminate].
    cbn [heap trace set_payload payload]. rewrite lookup_insert_eq.
    intros [= _ <-]. cbn [heap]. rewrite lookup_insert_ne by congruence.
    by apply allocated_keeps. }
  split; [|split].
  - destruct (init_middleware_run S2N codec secret' opts now now' req w)
      as (j1 & claims & jv & wv & Hver & _ & _ & Hp & Hmw).
    destruct Hver as (-> & _).
    assert (Hkept : heap (allocated claims (logged (Call "verify") (allocated ∅ w))) !! l
                    = Some o)
      by (apply allocated_keeps; cbn [logged heap]; by apply allocated_keeps).
    intros req' w'. rewrite Hmw.
    destruct (valid jv && negb (stale jv) && Options.refresh opts).
    + intros [= _ <-]. cbn [heap].
      rewrite lookup_insert_ne; [exact Hkept|].
      rewrite Hp. intros Heq.
      pose proof (fresh_loc_free (allocated ∅ w)) as Hf. rewrite Heq in Hf.
      rewrite (allocated_keeps ∅ w l o Hl) in Hf. discriminate.
    + intros [= _ <-]. exact Hkept.
  - intros p j w' Hne. unfold res_jwt. unfold bind at 1. rewrite new_JWT_run.
    cbv beta iota. unfold bind at 1.
    destruct (sign codec now p _ (allocated ∅ w)) as [[j1|e] w1] eqn:Hs; [|discriminate].
    rewrite store_run. intros [= _ <-]. cbn [heap].
    exact (Hsign p _ j1 w1 Hne Hs).
  - intros p s j w' Hne. unfold create.
    destruct (secret_given s); cbn [negb]; [|discriminate].
    unfold bind at 1, get_heap. cbv beta iota.
    unfold bind at 1. rewrite new_JWT_run. cbv beta iota.
    intros Hs. exact (Hsign p _ j w' Hne Hs).
Qed.

Lemma exports_frame_witness :
  let C : obj := {[ "admin" := VBool true ]} in
  let w := {| heap := {[ 0%nat := C ]}; trace := [] |} in
  let req := incoming {[ "jwt-express" := "good" ]} None in
  match init_middleware decimal Stub.jsonwebtoken (fun _ => "secret") defaults
          1000000 1000001 req w with
  | (Ok _, w') => heap w' !! 0%nat = Some C
  | (Throw _, _) => False
  end.
Proof.
  intros C w req.
  destruct (init_middleware decimal Stub.jsonwebtoken (fun _ => "secret") defaults
              1000000 1000001 req w) as [[req'|e] w'] eqn:Hrun.
  - apply (exports_frame decimal Stub.jsonwebtoken (fun _ => "secret") defaults
             1000000 1000001 req w 0%nat C eq_refl) in Hrun. exact Hrun.
  - vm_compute in Hrun. discriminate.
Defined.

Lemma cookie_events_app (t t' : list event) :
  cookie_events (t ++ t') = (cookie_events t ++ cookie_events t')%list.
Proof. apply List.filter_app. Qed.

(** With [cookies] switched off no export touches the cookie:
    [init]'s middleware, [res.jwt], [store] and [clear] make no call of
    [res.cookie] or [res.clearCookie], and the token is looked for in
    the [Authorization] header alone, whatever cookies the request
    carries. *)
Theorem header_mode_leaves_cookies (S2N : string -> number) (codec : utils.t)
    (secret' : Request.t -> string) (opts : Options.t) (now now' : Z)
    (req : Request.t) (w : World) :
  Options.cookies opts = false ->
  (exists req' w',
     init_middleware S2N codec secret' opts now now' req w = (Ok req', w')
     /\ cookie_events (trace w') = cookie_events (trace w))
  /\ (forall p C, heap w !! p = Some C ->
        exists j w',
          res_jwt codec secret' opts req now p w = (Ok j, w')
          /\ cookie_events (trace w') = cookie_events (trace w))
  /\ (forall this, options this = opts ->
        exists w', store this w = (Ok this, w')
                   /\ cookie_events (trace w') = cookie_events (trace w))
  /\ clear opts w = (Ok tt, w)
  /\ (forall cookies',
        extract opts (incoming cookies' (Request.authorization req)) = extract opts req).
Proof.
  intros Hoff. split; [|split; [|split; [|split]]].
  - destruct (init_middleware_run S2N codec secret' opts now now' req w)
      as (j1 & claims & jv & wv & Hver & _ & _ & _ & Hmw).
    destruct Hver as (-> & _). rewrite Hmw, Hoff.
    destruct (valid jv && negb (stale jv) && Options.refresh opts);
      eexists _, _; (split; [reflexivity|]); cbn [trace allocated logged];
      rewrite !cookie_events_app; cbn; by rewrite ?app_nil_r.
  - intros p C Hp. eexists _, _.
    split; [apply (res_jwt_run codec secret' opts req now p C w Hp)|].
    cbn [trace]. rewrite Hoff, cookie_events_app. cbn. by rewrite app_nil_r.
  - intros this Ho. eexists. split; [apply store_run|].
    cbn [trace]. rewrite Ho, Hoff, cookie_events_app. cbn. by rewrite app_nil_r.
  - unfold clear. by rewrite Hoff.
  - intros cookies'. unfold extract. by rewrite Hoff.
Qed.

Lemma header_mode_leaves_cookies_witness :
  let opts := fill_in {| UserOptions.cookie := None; UserOptions.cookieOptions := None;
                         UserOptions.cookies := Some false; UserOptions.refresh := None;
                         UserOptions.reqProperty := None; UserOptions.revoke := None;
                         UserOptions.signOptions := None; UserOptions.stales := None;
                         UserOptions.verify := None; UserOptions.verifyOptions := None |} in
  let req := incoming ∅ (Some "Bearer good") in
  exists req' w',
    init_middleware decimal Stub.jsonwebtoken (fun _ => "secret") opts
      1000000 1000001 req Stub.world0 = (Ok req', w')
    /\ cookie_events (trace w') = cookie_events (trace Stub.world0).
Proof.
  intros opts req.
  apply (header_mode_leaves_cookies decimal Stub.jsonwebtoken (fun _ => "secret") opts
           1000000 1000001 req Stub.world0).
  reflexivity.
Defined.

(** ** A session across two requests *)

(** A token issued by [res.jwt] and sent back as the cookie opens the
    next request: when the codec gives the signed payload back, the
    [verify] function of the options accepts it and the clock of the
    second request is positive and not past the stamp, the middleware
    attaches a token that passes both guards, and its claims are the
    issued ones (stamped again when [refresh] is set). *)
Theorem session_round_trip (S2N : string -> number) (codec : utils.t)
    (secret' : Request.t -> string) (opts : Options.t) (now now' now'' : Z)
    (p : loc) (C : obj) (req0 req : Request.t) (w w2 : World) :
  let claims := stamped now opts C in
  let tok := utils.sign codec claims (secret' req0) (Options.signOptions opts) in
  heap w !! p = Some C ->
  Options.cookies opts = true ->
  Request.cookies req !! Options.cookie opts = Some tok ->
  secret' req = secret' req0 ->
  utils.verify codec tok (secret' req) (Options.verifyOptions opts) = Ok claims ->
  (forall s h, snap_token s = tok -> h !! snap_payload s = Some claims ->
               Options.verify opts s h = true) ->
  0 < now' -> now' <= now + Options.stales opts ->
  exists j w1 req' w' j',
    res_jwt codec secret' opts req0 now p w = (Ok j, w1)
    /\ token j = tok
    /\ last (trace w1) = Some (ResCookie (Options.cookie opts) tok
                                 (Options.cookieOptions opts))
    /\ init_middleware S2N codec secret' opts now' now'' req w2 = (Ok req', w')
    /\ active req' = Next /\ valid_guard req' = Next
    /\ Request.jwt req' = Some j'
    /\ heap w' !! payload j'
       = Some (if Options.refresh opts then stamped now'' opts claims else claims).
Proof.
  intros claims tok Hp Hon Hcookie Hsecret Hcodec Haccept Hpos Hwindow.
  eexists _, _. 
  rewrite (res_jwt_run codec secret' opts req0 now p C w Hp).
  destruct (init_middleware_run S2N codec secret' opts now' now'' req w2)
    as (j1 & claims' & jv & wv & Hver & Hopts & _ & _ & Hmw).
  destruct Hver as (Hwv & Hstep & _ & Hl & _ & Hpl & _ & _ & _ & Hv & Hs).
  destruct Hstep as (_ & Ht1 & _ & _ & Ho1 & Hs1 & Hcase).
  assert (Hext : extract opts req = Some tok) by (unfold extract; by rewrite Hon).
  rewrite Hext, or_empty_Some in Hcase, Ht1.
  cbn [secret options constructed stale] in Hcase, Ho1, Hs1.
  rewrite Hcodec in Hcase. destruct Hcase as (-> & Hv1 & _).
  assert (Hvalid : valid jv = true).
  { rewrite Hv, Hv1, Ho1. cbn [andb]. apply Haccept.
    - exact Ht1.
    - cbn [snapshot snap_payload]. rewrite <- Hpl. exact Hl. }
  assert (Hstales : get claims "stales" = VNumber (Num (now + Options.stales opts)))
    by (unfold get, claims, stamped; by rewrite lookup_insert_eq).
  assert (Hfresh : stale jv = false).
  { rewrite Hs, Hstales.
    replace (le S2N (VNumber (Num now')) (VNumber (Num (now + Options.stales opts))))
      with true by (symmetry; apply le_numbers; lia).
    cbn [truthy].
    replace (now + Options.stales opts =? 0) with false
      by (symmetry; apply Z.eqb_neq; lia).
    apply andb_false_r. }
  rewrite Hmw, Hvalid, Hfresh. cbn [negb andb].
  destruct (Options.refresh opts).
  - eexists _, _, _. split; [reflexivity|]. split; [reflexivity|].
    split; [cbn [trace]; rewrite Hon, !app_assoc; apply last_snoc|].
    split; [reflexivity|].
    split; [by apply active_set_jwt|]. split; [by apply valid_guard_set_jwt|].
    split; [reflexivity|]. cbn [signed payload heap]. apply lookup_insert_eq.
  - eexists _, _, _. split; [reflexivity|]. split; [reflexivity|].
    split; [cbn [trace]; rewrite Hon, !app_assoc; apply last_snoc|].
    split; [reflexivity|].
    split; [by apply active_set_jwt|]. split; [by apply valid_guard_set_jwt|].
    split; [reflexivity|]. exact Hl.
Qed.

Lemma session_round_trip_witness :
  let C : obj := {[ "admin" := VBool true ]} in
  let w := {| heap := {[ 0%nat := C ]}; trace := [] |} in
  let req0 := incoming ∅ None in
  let req := incoming {[ "jwt-express" := "good" ]} None in
  exists j w1 req' w' j',
    res_jwt Stub.jsonwebtoken (fun _ => "secret") defaults req0 1000000 0%nat w = (Ok j, w1)
    /\ token j = "good"
    /\ last (trace w1) = Some (ResCookie "jwt-express" "good" (Options.cookieOptions defaults))
    /\ init_middleware decimal Stub.jsonwebtoken (fun _ => "secret") defaults
         1000500 1000501 req w = (Ok req', w')
    /\ active req' = Next /\ valid_guard req' = Next
    /\ Request.jwt req' = Some j'
    /\ heap w' !! payload j' = Some (stamped 1000501 defaults (stamped 1000000 defaults C)).
Proof.
  intros C w req0 req.
  apply (session_round_trip decimal Stub.jsonwebtoken (fun _ => "secret") defaults
           1000000 1000500 1000501 0%nat C req0 req w w).
  - reflexivity.
  - reflexivity.
  - reflexivity.
  - reflexivity.
  - reflexivity.
  - reflexivity.
  - lia.
  - simpl. lia.
Defined.

(** ** [init] and its options *)

(** [init] throws a [ReferenceError] without a usable secret (none, or
    the empty string).  With one, an option that is given is kept even
    when it is falsy: with [refresh: false] the middleware attaches the
    verified token as it is and never calls [resign] or [store]. *)
Theorem init_refresh_switched_off (S2N : string -> number) (codec : utils.t)
    (secret : option (Secret Request.t)) (u : UserOptions.t) (now now' : Z)
    (req : Request.t) (w : World) :
  (secret_given secret = false ->
   forall options', init S2N codec secret options'
                    = Throw (ReferenceError "secret must be defined"))
  /\ (secret_given secret = true -> UserOptions.refresh u = Some false ->
      exists opts mw jv wv,
        init S2N codec secret (Some u) = Ok (opts, mw)
        /\ Options.refresh opts = false
        /\ (let* jwt := new_JWT (resolve secret req) opts in
            verify S2N codec now (extract opts req) jwt) w = (Ok jv, wv)
        /\ mw now now' req w = (Ok (set_jwt jv req), wv)
        /\ calls "resign" (trace wv) = calls "resign" (trace w)
        /\ calls "store" (trace wv) = calls "store" (trace w)).
Proof.
  split.
  - intros Hno options'. unfold init. by rewrite Hno.
  - intros Hyes Hoff. unfold init. rewrite Hyes. cbn [negb default].
    set (opts := fill_in u).
    assert (Hrefresh : Options.refresh opts = false)
      by (unfold opts, fill_in; cbn [Options.refresh]; by rewrite Hoff).
    destruct (init_middleware_run S2N codec (resolve secret) opts now now' req w)
      as (j1 & claims & jv & wv & Hver & _ & _ & _ & Hmw).
    destruct Hver as (-> & _ & Hrun & _).
    rewrite Hrefresh, andb_false_r in Hmw.
    eexists opts, _, jv, _. split; [reflexivity|]. split; [exact Hrefresh|].
    split; [unfold bind; rewrite new_JWT_run; exact Hrun|].
    split; [exact Hmw|].
    cbn [trace allocated logged]. rewrite !calls_app. cbn. split; lia.
Qed.

Lemma init_refresh_switched_off_witness :
  let u := {| UserOptions.cookie := None; UserOptions.cookieOptions := None;
              UserOptions.cookies := None; UserOptions.refresh := Some false;
              UserOptions.reqProperty := None; UserOptions.revoke := None;
              UserOptions.signOptions := None; UserOptions.stales := None;
              UserOptions.verify := None; UserOptions.verifyOptions := None |} in
  let req := incoming {[ "jwt-express" := "good" ]} None in
  exists opts mw jv wv,
    init decimal Stub.jsonwebtoken (Some (SecretString "secret")) (Some u) = Ok (opts, mw)
    /\ Options.refresh opts = false
    /\ (let* jwt := new_JWT "secret" opts in
        verify decimal Stub.jsonwebtoken 1000000 (extract opts req) jwt) Stub.world0
       = (Ok jv, wv)
    /\ mw 1000000 1000001 req Stub.world0 = (Ok (set_jwt jv req), wv)
    /\ calls "resign" (trace wv) = calls "resign" (trace Stub.world0)
    /\ calls "store" (trace wv) = calls "store" (trace Stub.world0).
Proof.
  intros u req.
  apply (init_refresh_switched_off decimal Stub.jsonwebtoken
           (Some (SecretString "secret")) u 1000000 1000001 req Stub.world0).
  - reflexivity.
  - reflexivity.
Defined.

(** ** [resign] and [verify] on tokens that did not verify *)

(** [resign] asks for no validity: a new token whose [verify] failed
    (the codec threw) holds the payload that [utils.decode] read
    without any check, and [resign] turns it into a valid, fresh token
    whose string is the encoding of exactly those claims, stamped. *)
Theorem resign_signs_unverified_claims (S2N : string -> number) (codec : utils.t)
    (now now' : Z) (secret' : string) (opts : Options.t) (tok : option string)
    (err : obj) (w : World) :
  utils.verify codec (or_empty tok) secret' (Options.verifyOptions opts) = Throw err ->
  let claims := default ∅ (utils.decode codec (or_empty tok)) in
  exists jv wv j' w',
    (let* this := new_JWT secret' opts in verify S2N codec now tok this) w = (Ok jv, wv)
    /\ valid jv = false
    /\ resign codec now' jv wv = (Ok j', w')
    /\ valid j' = true /\ expired j' = false /\ stale j' = false
    /\ token j' = utils.sign codec (stamped now' opts claims) secret'
                    (Options.signOptions opts)
    /\ heap w' !! payload j' = Some (stamped now' opts claims).
Proof.
  intros Hthrow claims.
  set (this := constructed (fresh_loc w) secret' opts).
  destruct (verify_verified S2N codec now tok this (allocated ∅ w))
    as (j1 & claims' & jv & Hver).
  destruct Hver as (_ & Hstep & Hrun & Hl & _ & _ & Hs & Ho & _ & Hv & _).
  destruct Hstep as (_ & _ & _ & Hs1 & Ho1 & _ & Hcase).
  cbn [secret options this constructed valid] in Hcase, Hs1, Ho1.
  rewrite Hthrow in Hcase. destruct Hcase as (-> & Hv1 & _).
  exists jv. eexists _, _, _.
  split; [unfold bind; rewrite new_JWT_run; exact Hrun|].
  split; [rewrite Hv, Hv1; reflexivity|].
  split; [apply (resign_run codec now' jv _ _ Hl)|].
  cbn [valid expired stale token payload heap].
  rewrite Ho, Ho1, Hs, Hs1.
  repeat (split; [reflexivity|]). apply lookup_insert_eq.
Qed.

Lemma resign_signs_unverified_claims_witness :
  exists jv wv j' w',
    (let* this := new_JWT "secret" defaults in
     verify decimal Stub.jsonwebtoken 1000000 (Some "expired") this) Stub.world0
      = (Ok jv, wv)
    /\ valid jv = false
    /\ resign Stub.jsonwebtoken 1000001 jv wv = (Ok j', w')
    /\ valid j' = true /\ expired j' = false /\ stale j' = false
    /\ token j' = utils.sign Stub.jsonwebtoken (stamped 1000001 defaults Stub.claims0)
                    "secret" (Options.signOptions defaults)
    /\ heap w' !! payload j' = Some (stamped 1000001 defaults Stub.claims0).
Proof.
  apply (resign_signs_unverified_claims decimal Stub.jsonwebtoken 1000000 1000001
           "secret" defaults (Some "expired")
           (error "TokenExpiredError" "jwt expired") Stub.world0).
  reflexivity.
Defined.

(** Staleness does not depend on validity: a new token that verifies a
    string the codec rejects as expired, whose unverified payload
    carries a non-zero [stales] not before the clock, ends invalid,
    expired, and NOT stale. *)
Theorem verify_expired_yet_fresh (S2N : string -> number) (codec : utils.t)
    (now z : Z) (secret' : string) (opts : Options.t) (tok : option string)
    (err claims : obj) (w : World) :
  utils.verify codec (or_empty tok) secret' (Options.verifyOptions opts) = Throw err ->
  get err "name" = VString "TokenExpiredError" ->
  utils.decode codec (or_empty tok) = Some claims ->
  get claims "stales" = VNumber (Num z) -> z <> 0 -> now <= z ->
  exists jv wv,
    (let* this := new_JWT secret' opts in verify S2N codec now tok this) w = (Ok jv, wv)
    /\ valid jv = false /\ expired jv = true /\ stale jv = false
    /\ heap wv !! payload jv = Some claims.
Proof.
  intros Hthrow Hname Hdecode Hstales Hz Hnow.
  set (this := constructed (fresh_loc w) secret' opts).
  destruct (verify_verified S2N codec now tok this (allocated ∅ w))
    as (j1 & claims' & jv & Hver).
  destruct Hver as (_ & Hstep & Hrun & Hl & _ & _ & _ & _ & He & Hv & Hs).
  destruct Hstep as (_ & _ & _ & _ & _ & Hs1 & Hcase).
  cbn [secret options this constructed valid expired stale] in Hcase, Hs1.
  rewrite Hthrow, Hdecode in Hcase. cbn [default from_option id] in Hcase.
  destruct Hcase as (Hc & Hv1 & He1). subst claims'.
  exists jv. eexists. split; [unfold bind; rewrite new_JWT_run; exact Hrun|].
  split; [rewrite Hv, Hv1; reflexivity|].
  split.
  { rewrite He, He1. unfold expired_error. rewrite Hname. reflexivity. }
  split; [|exact Hl].
  rewrite Hs, Hs1, Hstales. cbn [truthy andb].
  replace (z =? 0) with false by (symmetry; by apply Z.eqb_neq).
  replace (le S2N (VNumber (Num now)) (VNumber (Num z))) with true
    by (symmetry; by apply le_numbers).
  reflexivity.
Qed.

Lemma verify_expired_yet_fresh_witness :
  exists jv wv,
    (let* this := new_JWT "secret" defaults in
     verify decimal Stub.jsonwebtoken 1000000 (Some "expired") this) Stub.world0
      = (Ok jv, wv)
    /\ valid jv = false /\ expired jv = true /\ stale jv = false
    /\ heap wv !! payload jv = Some Stub.claims0.
Proof.
  apply (verify_expired_yet_fresh decimal Stub.jsonwebtoken 1000000 1900000
           "secret" defaults (Some "expired")
           (error "TokenExpiredError" "jwt expired") Stub.claims0 Stub.world0).
  - reflexivity.
  - reflexivity.
  - reflexivity.
  - reflexivity.
  - discriminate.
  - lia.
Defined.

(** ** The comparisons of [require] *)

Lemma require_middleware_run (S2N : string -> number) (key : string) (operator value' : value)
    (req : Request.t) (w : World) (claims : obj) :
  claims_of w req = Some claims ->
  let operator' := if truthy operator then operator else VString "==" in
  let expected := if truthy operator then value' else VBool true in
  require_middleware S2N key operator value' req w
  = (Ok (if truthy (compare S2N (get claims key) operator' expected)
         then Next
         else NextError (insufficient key (get claims key) operator' expected)), w).
Proof.
  intros Hclaims operator' expected. unfold require_middleware, claims_of in *.
  assert (Hdata : match Request.jwt req with
                  | Some j => let* o := load (payload j) in ret (get o key)
                  | None => ret (get ∅ key)
                  end w = (Ok (get claims key), w)).
  { destruct (Request.jwt req) as [j|].
    - unfold bind, load, ret. rewrite Hclaims. reflexivity.
    - injection Hclaims as <-. reflexivity. }
  unfold bind at 1. rewrite Hdata. unfold operator', expected.
  destruct (truthy operator); cbn [negb];
    match goal with |- context [truthy ?c] => destruct (truthy c) end; reflexivity.
Qed.

Lemma operators_cases (operator : value) :
  operator ∈ operators ->
  operator = VString "==" \/ operator = VString "===" \/ operator = VString "!="
  \/ operator = VString "!==" \/ operator = VString "<" \/ operator = VString "<="
  \/ operator = VString ">" \/ operator = VString ">=".
Proof.
  unfold operators. simpl. intros H.
  repeat (apply elem_of_cons in H as [->|H]; [tauto|]). inversion H.
Qed.

(** A guard built with one of the eight operators always decides:
    the comparison chain takes a branch (its result is a boolean,
    never [undefined]), the middleware returns without changing
    anything, and when the comparison fails the error carries the
    key, the value found, and the operator and value as given. *)
Theorem require_guard_decides (S2N : string -> number) (key : string) (operator value' : value)
    (req : Request.t) (w : World) (claims : obj) :
  key <> "" -> operator ∈ operators -> claims_of w req = Some claims ->
  exists b err,
    require S2N key operator value' = Ok (require_middleware S2N key operator value')
    /\ compare S2N (get claims key) operator value' = VBool b
    /\ require_middleware S2N key operator value' req w
       = (Ok (if b then Next else NextError err), w)
    /\ err !! "name" = Some (VString "JWTExpressError")
    /\ err !! "message" = Some (VString "JWT is insufficient")
    /\ err !! "key" = Some (VString key)
    /\ err !! "data" = Some (get claims key)
    /\ err !! "operator" = Some operator
    /\ err !! "value" = Some value'.
Proof.
  intros Hkey Hop Hclaims.
  assert (Hb : exists b, compare S2N (get claims key) operator value' = VBool b).
  { destruct (operators_cases operator Hop)
      as [->|[->|[->|[->|[->|[->|[->| ->]]]]]]]; eexists; reflexivity. }
  assert (Ht : truthy operator = true).
  { destruct (operators_cases operator Hop)
      as [->|[->|[->|[->|[->|[->|[->| ->]]]]]]]; reflexivity. }
  destruct Hb as [b Hb].
  exists b, (insufficient key (get claims key) operator value').
  split; [apply require_accepts; [exact Hkey|by right]|].
  split; [exact Hb|].
  split.
  { rewrite (require_middleware_run S2N key operator value' req w claims Hclaims).
    rewrite Ht, Hb. cbn [truthy]. reflexivity. }
  unfold insufficient, JWTExpressError, error.
  repeat split; by simplify_map_eq.
Qed.

Lemma require_guard_decides_witness :
  let claims : obj := {[ "level" := VNumber (Num 3) ]} in
  let req := {| Request.cookies := ∅; Request.authorization := None;
                Request.jwt := Some (constructed 0%nat "secret" defaults) |} in
  let w := {| heap := {[ 0%nat := claims ]}; trace := [] |} in
  exists b err,
    require decimal "level" (VString ">") (VNumber (Num 3))
      = Ok (require_middleware decimal "level" (VString ">") (VNumber (Num 3)))
    /\ compare decimal (get claims "level") (VString ">") (VNumber (Num 3)) = VBool b
    /\ require_middleware decimal "level" (VString ">") (VNumber (Num 3)) req w
       = (Ok (if b then Next else NextError err), w)
    /\ err !! "name" = Some (VString "JWTExpressError")
    /\ err !! "message" = Some (VString "JWT is insufficient")
    /\ err !! "key" = Some (VString "level")
    /\ err !! "data" = Some (get claims "level")
    /\ err !! "operator" = Some (VString ">")
    /\ err !! "value" = Some (VNumber (Num 3)).
Proof.
  intros claims req w.
  apply (require_guard_decides decimal "level" (VString ">") (VNumber (Num 3)) req w claims).
  - discriminate.
  - unfold operators. simpl. do 6 right. left.
  - reflexivity.
Defined.

(** On a numeric claim [z] and a numeric value [n] the eight operators
    are the comparisons of the integers: the guard passes exactly
    when [z] stands in the relation to [n]. *)
Theorem require_compares_numbers (S2N : string -> number) (key : string) (z n : Z)
    (req : Request.t) (w : World) (claims : obj) :
  claims_of w req = Some claims ->
  get claims key = VNumber (Num z) ->
  let passes op :=
    require_middleware S2N key (VString op) (VNumber (Num n)) req w = (Ok Next, w) in
  (passes "==" <-> z = n) /\ (passes "===" <-> z = n)
  /\ (passes "!=" <-> z <> n) /\ (passes "!==" <-> z <> n)
  /\ (passes "<" <-> z < n) /\ (passes "<=" <-> z <= n)
  /\ (passes ">" <-> z > n) /\ (passes ">=" <-> z >= n).
Proof.
  intros Hclaims Hdata passes. unfold passes.
  rewrite !(require_middleware_run S2N key _ _ req w claims Hclaims), Hdata.
  cbn [truthy String.eqb negb]. 
  unfold compare, lt, le, gt, ge, abstract_lt, num_lt, loose_eq, strict_eq, num_eq, to_number.
  cbn [String.eqb Ascii.eqb Bool.eqb truthy negb].
  destruct (z =? n) eqn:Heq; [apply Z.eqb_eq in Heq|apply Z.eqb_neq in Heq];
    destruct (z <? n) eqn:Hlt; [apply Z.ltb_lt in Hlt|apply Z.ltb_ge in Hlt
                               |apply Z.ltb_lt in Hlt|apply Z.ltb_ge in Hlt];
    destruct (n <? z) eqn:Hgt;
    try (apply Z.ltb_lt in Hgt); try (apply Z.ltb_ge in Hgt);
    cbn [truthy negb]; repeat split; intros; try discriminate; try lia; try reflexivity.
Qed.

Lemma require_compares_numbers_witness :
  let req := {| Request.cookies := ∅; Request.authorization := None;
                Request.jwt := Some (constructed 0%nat "secret" defaults) |} in
  let w := {| heap := {[ 0%nat := {[ "level" := VNumber (Num 4) ]} ]}; trace := [] |} in
  require_middleware decimal "level" (VString ">") (VNumber (Num 3)) req w = (Ok Next, w).
Proof.
  intros req w.
  apply (require_compares_numbers decimal "level" 4 3 req w {[ "level" := VNumber (Num 4) ]});
    [reflexivity|reflexivity|lia].
Defined.

(** A claim that is missing (no such key, or no token on the request),
    under a key that [Object.prototype] does not define, reads as
    [undefined]: every ordering guard fails, whatever the value; the
    guards [!=] and [!==] PASS unless the value is itself [null] or
    [undefined] (for [!==]: [undefined]); [==] and [===] pass only
    against those. *)
Theorem require_on_missing_claim (S2N : string -> number) (key : string)
    (value' : value) (req : Request.t) (w : World) (claims : obj) :
  key ∉ Object_prototype ->
  claims_of w req = Some claims ->
  claims !! key = None ->
  let passes op :=
    require_middleware S2N key (VString op) value' req w = (Ok Next, w) in
  let fails op :=
    require_middleware S2N key (VString op) value' req w
    = (Ok (NextError (insufficient key VUndefined (VString op) value')), w) in
  fails "<" /\ fails "<=" /\ fails ">" /\ fails ">="
  /\ (passes "!=" <-> value' <> VUndefined /\ value' <> VNull)
  /\ (passes "!==" <-> value' <> VUndefined)
  /\ (passes "==" <-> value' = VUndefined \/ value' = VNull)
  /\ (passes "===" <-> value' = VUndefined).
Proof.
  intros _ Hclaims Hnone passes fails. unfold passes, fails.
  assert (Hdata : get claims key = VUndefined) by (unfold get; by rewrite Hnone).
  rewrite !(require_middleware_run S2N key _ _ req w claims Hclaims), Hdata.
  cbn [truthy String.eqb negb].
  unfold compare, lt, le, gt, ge, abstract_lt, num_lt, loose_eq, strict_eq, to_number.
  cbn [String.eqb Ascii.eqb Bool.eqb truthy negb].
  destruct value' as [| |b|[|z]|s]; cbn [truthy negb];
    repeat split; intros; try discriminate; try tauto; try congruence;
    try (intros [? | ?]; discriminate);
    try (destruct H as [? ?]; congruence); try (destruct H; congruence).
  all: by destruct (S2N s).
Qed.

Lemma require_on_missing_claim_witness :
  let req := incoming ∅ None in
  require_middleware decimal "banned" (VString "!=") (VBool true) req Stub.world0
  = (Ok Next, Stub.world0).
Proof.
  intros req.
  destruct (require_on_missing_claim decimal "banned" (VBool true) req Stub.world0 ∅)
    as (_ & _ & _ & _ & Hne & _).
  - unfold Object_prototype. intros H.
    repeat (apply elem_of_cons in H as [[=]|H]). inversion H.
  - reflexivity.
  - reflexivity.
  - apply Hne. split; discriminate.
Defined.

(** A falsy operator (left out, or the empty string) makes the guard
    ignore the value it was given: [require] accepts it, and the
    middleware compares with [== true] as [require(key)] does; on
    failure the error reports the operator ["=="] and the value
    [true], not the value given. *)
Theorem require_ignores_value (S2N : string -> number) (key : string)
    (operator value' : value) (req : Request.t) (w : World) (claims : obj) :
  key <> "" ->
  truthy operator = false ->
  claims_of w req = Some claims ->
  exists mw,
    require S2N key operator value' = Ok mw
    /\ mw req w = require_middleware S2N key VUndefined VUndefined req w
    /\ mw req w
       = (Ok (if loose_eq S2N (get claims key) (VBool true)
              then Next
              else NextError (insufficient key (get claims key) (VString "==") (VBool true))),
          w).
Proof.
  intros Hkey Hfalsy Hclaims. eexists.
  split; [apply require_accepts; [exact Hkey|by left]|].
  split; [unfold require_middleware; rewrite Hfalsy; reflexivity|].
  rewrite (require_middleware_run S2N key operator value' req w claims Hclaims), Hfalsy.
  rewrite compare_default. cbn [truthy]. reflexivity.
Qed.

Lemma require_ignores_value_witness :
  let claims : obj := {[ "level" := VNumber (Num 5) ]} in
  let req := {| Request.cookies := ∅; Request.authorization := None;
                Request.jwt := Some (constructed 0%nat "secret" defaults) |} in
  let w := {| heap := {[ 0%nat := claims ]}; trace := [] |} in
  exists mw,
    require decimal "level" (VString "") (VNumber (Num 5)) = Ok mw
    /\ mw req w = require_middleware decimal "level" VUndefined VUndefined req w
    /\ mw req w
       = (Ok (if loose_eq decimal (get claims "level") (VBool true)
              then Next
              else NextError (insufficient "level" (get claims "level") (VString "==")
                                (VBool true))),
          w).
Proof.
  intros claims req w.
  apply (require_ignores_value decimal "level" (VString "") (VNumber (Num 5)) req w claims).
  - discriminate.
  - reflexivity.
  - reflexivity.
Defined.

(** ** The token in the [Authorization] header *)

Lemma split_lacks (c : ascii) (s : string) :
  lacks c s = true -> split c s = [s].
Proof.
  induction s as [|a r IH]; [reflexivity|].
  cbn [lacks split]. intros H. apply andb_true_iff in H as [Ha Hr].
  apply negb_true_iff in Ha. rewrite Ha, (IH Hr). reflexivity.
Qed.

Lemma split_prefix (c : ascii) (a b : string) :
  lacks c a = true -> split c (a ++ String c b) = a :: split c b.
Proof.
  induction a as [|x a' IH]; intros H.
  - change ("" ++ String c b) with (String c b).
    cbn [split]. by rewrite Ascii.eqb_refl.
  - cbn [lacks] in H. apply andb_true_iff in H as [Hx Ha].
    apply negb_true_iff in Hx.
    change (String x a' ++ String c b) with (String x (a' ++ String c b)).
    cbn [split]. rewrite Hx, (IH Ha). reflexivity.
Qed.

Lemma truthy_append (a b : string) (c : ascii) :
  truthy (VString (a ++ String c b)) = true.
Proof. destruct a; reflexivity. Qed.

(** In header mode the token is the second piece of the header, cut at
    single spaces: [scheme token] gives [token] whatever the scheme is
    (it is not checked), anything after a second space is dropped, and
    a header without a space, or no header, gives no token. *)
Theorem extract_from_header (opts : Options.t) (scheme tok rest : string)
    (cookies' : gmap string string) :
  Options.cookies opts = false ->
  lacks " " scheme = true -> lacks " " tok = true ->
  extract opts (incoming cookies' (Some (scheme ++ " " ++ tok))) = Some tok
  /\ extract opts (incoming cookies' (Some (scheme ++ " " ++ tok ++ " " ++ rest))) = Some tok
  /\ extract opts (incoming cookies' (Some scheme)) = None
  /\ extract opts (incoming cookies' None) = None.
Proof.
  intros Hoff Hscheme Htok. unfold extract, incoming. rewrite Hoff.
  cbn [Request.authorization].
  change (" " ++ tok)%string with (String " " tok).
  change (" " ++ tok ++ " " ++ rest)%string with (String " " (tok ++ String " " rest)).
  rewrite !truthy_append, !split_prefix, split_lacks by assumption.
  repeat split.
  destruct (truthy (VString scheme)); [|reflexivity].
  by rewrite split_lacks.
Qed.

Lemma extract_from_header_witness :
  let opts := fill_in {| UserOptions.cookie := None; UserOptions.cookieOptions := None;
                         UserOptions.cookies := Some false; UserOptions.refresh := None;
                         UserOptions.reqProperty := None; UserOptions.revoke := None;
                         UserOptions.signOptions := None; UserOptions.stales := None;
                         UserOptions.verify := None; UserOptions.verifyOptions := None |} in
  extract opts (incoming ∅ (Some ("Bearer" ++ " " ++ "abc.def.ghi"))) = Some "abc.def.ghi"
  /\ extract opts (incoming ∅ (Some ("Bearer" ++ " " ++ "abc.def.ghi" ++ " " ++ "x")))
     = Some "abc.def.ghi"
  /\ extract opts (incoming ∅ (Some "Bearer")) = None
  /\ extract opts (incoming ∅ None) = None.
Proof.
  intros opts.
  apply (extract_from_header opts "Bearer" "abc.def.ghi" "x" ∅); reflexivity.
Defined.

(** ** [create] *)

(** [create] signs as [res.jwt] does and stores nothing: for a secret
    that is given, it returns the very token [res.jwt] would, valid
    and fresh, over the caller's payload object, with [sign] as its
    only call; a secret function is handed the payload as the caller
    passed it, before [stales] is written.  Without a secret it throws
    and leaves the payload alone. *)
Theorem create_signs_without_storing (codec : utils.t) (opts : Options.t)
    (secret' : Secret (option obj)) (now : Z) (p : loc) (C : obj)
    (req : Request.t) (w : World) :
  secret_given (Some secret') = true ->
  heap w !! p = Some C ->
  exists j w1 w2,
    create codec opts (Some secret') now p w = (Ok j, w1)
    /\ res_jwt codec (fun _ => resolve (Some secret') (Some C)) opts req now p w = (Ok j, w2)
    /\ heap w1 = heap w2
    /\ trace w1 = (trace w ++ [Call "sign"])%list
    /\ secret j = resolve (Some secret') (Some C)
    /\ valid j = true /\ expired j = false /\ stale j = false
    /\ payload j = p
    /\ heap w1 !! p = Some (stamped now opts C)
    /\ create codec opts None now p w = (Throw (ReferenceError "secret must be defined"), w)
    /\ create codec opts (Some (SecretString "")) now p w
       = (Throw (ReferenceError "secret must be defined"), w).
Proof.
  intros Hgiven Hp. eexists _, _, _.
  split; [apply (create_run codec opts secret' now p C w Hgiven Hp)|].
  split; [apply (res_jwt_run codec _ opts req now p C w Hp)|].
  cbn [heap trace signed secret valid expired stale payload constructed].
  repeat (split; [reflexivity|]).
  split; [apply lookup_insert_eq|]. split; reflexivity.
Qed.

Lemma create_signs_without_storing_witness :
  let C : obj := {[ "user" := VString "ann" ]} in
  let w := {| heap := {[ 0%nat := C ]}; trace := [] |} in
  let by_user : Secret (option obj) :=
    SecretFunction (fun o => match o with
                             | Some o => to_string (get o "user")
                             | None => "none"
                             end) in
  exists j w1 w2,
    create Stub.jsonwebtoken defaults (Some by_user) 1000000 0%nat w = (Ok j, w1)
    /\ res_jwt Stub.jsonwebtoken (fun _ => "ann") defaults (incoming ∅ None) 1000000 0%nat w
       = (Ok j, w2)
    /\ heap w1 = heap w2
    /\ trace w1 = [Call "sign"]
    /\ secret j = "ann"
    /\ valid j = true /\ expired j = false /\ stale j = false
    /\ payload j = 0%nat
    /\ heap w1 !! 0%nat = Some (stamped 1000000 defaults C)
    /\ create Stub.jsonwebtoken defaults None 1000000 0%nat w
       = (Throw (ReferenceError "secret must be defined"), w)
    /\ create Stub.jsonwebtoken defaults (Some (SecretString "")) 1000000 0%nat w
       = (Throw (ReferenceError "secret must be defined"), w).
Proof.
  intros C w by_user.
  apply (create_signs_without_storing Stub.jsonwebtoken defaults by_user 1000000 0%nat C
           (incoming ∅ None) w); reflexivity.
Defined.

(** ** Chains of method calls on one token *)

Lemma grows_refl w : grows w w.
Proof. intros l H. exact H. Qed.

Lemma grows_trans w1 w2 w3 : grows w1 w2 -> grows w2 w3 -> grows w1 w3.
Proof. intros H12 H23 l H. apply H23, H12, H. Qed.

Lemma grows_allocated o w : grows w (allocated o w).
Proof.
  intros l [x Hx]. exists x. by apply allocated_keeps.
Qed.

Lemma grows_insert (w : World) (l : loc) (o : obj) (t : list event) :
  grows w {| heap := <[l := o]> (heap w); trace := t |}.
Proof.
  intros l' H. cbn [heap]. destruct (decide (l = l')) as [->|Hne].
  - rewrite lookup_insert_eq. by eexists.
  - by rewrite lookup_insert_ne.
Qed.

(** One method call on a token whose payload is an object: it returns,
    the payload is again an object, secret and options stay, and no
    object is lost.  A call other than [verify] keeps "valid implies
    not expired"; [verify] establishes it on a token that is neither
    valid nor expired. *)
Lemma operation_step (S2N : string -> number) (codec : utils.t)
    (o : operation) (this : JWT) (w : World) :
  revoke_keeps_objects (options this) ->
  is_Some (heap w !! payload this) ->
  signs_object w o ->
  exists j' w',
    apply_operation S2N codec o this w = (Ok j', w')
    /\ options j' = options this /\ secret j' = secret this
    /\ is_Some (heap w' !! payload j')
    /\ grows w w'
    /\ (is_verify o = false ->
        (valid this = true -> expired this = false) ->
        valid j' = true -> expired j' = false)
    /\ (valid this = false -> expired this = false ->
        valid j' = true -> expired j' = false).
Proof.
  intros Hrevoke [claims Hpayload] Hsigns.
  destruct o as [now p|now| | |now tok]; cbn [apply_operation is_verify].
  - destruct Hsigns as [C Hp]. eexists _, _.
    split; [apply (sign_run codec now p this w C Hp)|].
    cbn [options secret payload heap valid expired].
    repeat (split; [reflexivity|]).
    split; [rewrite lookup_insert_eq; by eexists|].
    split; [apply grows_insert|]. split; reflexivity.
  - eexists _, _.
    split; [apply (resign_run codec now this w claims Hpayload)|].
    cbn [options secret payload heap valid expired].
    repeat (split; [reflexivity|]).
    split; [rewrite lookup_insert_eq; by eexists|].
    split; [apply grows_insert|]. split; reflexivity.
  - unfold revoke, bind, emit, ret. cbv beta iota. eexists _, _.
    split; [reflexivity|]. repeat (split; [reflexivity|]).
    assert (Hg : grows w (Options.revoke (options this) (snapshot this)
                            {| heap := heap {| heap := heap w;
                                               trace := trace w ++ [Call "revoke"] |};
                               trace := trace {| heap := heap w;
                                                 trace := trace w ++ [Call "revoke"] |}
                                        ++ [Revoke (snapshot this)] |})).
    { eapply grows_trans; [|apply Hrevoke]. intros l H. exact H. }
    split; [apply Hg; by eexists|]. split; [exact Hg|]. split; tauto.
  - rewrite store_run. eexists _, _. split; [reflexivity|].
    repeat (split; [reflexivity|]). cbn [heap].
    split; [by eexists|]. split; [intros l H; exact H|]. split; tauto.
  - destruct (verify_verified S2N codec now tok this w) as (j1 & claims' & j' & Hver).
    destruct Hver as (_ & Hstep & Hrun & Hl & _ & _ & Hs & Ho & He & Hv & _).
    destruct Hstep as (_ & _ & _ & Hs1 & Ho1 & _ & Hcase).
    exists j', (allocated claims' (logged (Call "verify") w)).
    split; [exact Hrun|]. split; [congruence|]. split; [congruence|].
    split; [by eexists|].
    split; [eapply grows_trans; [|apply grows_allocated]; intros l H; exact H|].
    split; [discriminate|].
    intros Hnv Hne Hvalid. rewrite Hv in Hvalid.
    apply andb_true_iff in Hvalid as [Hv1 _]. rewrite He.
    destruct (utils.verify codec (or_empty tok) (secret this) _).
    + destruct Hcase as (_ & _ & ->). exact Hne.
    + destruct Hcase as (_ & Hv1' & _). congruence.
Qed.

Lemma signs_object_grows (w w' : World) (os : list operation) :
  grows w w' -> Forall (signs_object w) os -> Forall (signs_object w') os.
Proof.
  intros Hg H. eapply Forall_impl; [exact H|].
  intros [now p|now| | |now tok]; cbn; auto.
Qed.

Lemma operations_run (S2N : string -> number) (codec : utils.t)
    (os : list operation) (this : JWT) (w : World) :
  revoke_keeps_objects (options this) ->
  is_Some (heap w !! payload this) ->
  Forall (signs_object w) os ->
  exists j' w',
    apply_operations S2N codec os this w = (Ok j', w')
    /\ options j' = options this /\ secret j' = secret this
    /\ is_Some (heap w' !! payload j')
    /\ grows w w'
    /\ (Forall (fun o => is_verify o = false) os ->
        (valid this = true -> expired this = false) ->
        valid j' = true -> expired j' = false).
Proof.
  revert this w. induction os as [|o os IH]; intros this w Hrevoke Hpayload Hsigns.
  - exists this, w. cbn [apply_operations]. split; [reflexivity|].
    repeat split; auto using grows_refl.
  - apply Forall_cons in Hsigns as [Ho Hos].
    destruct (operation_step S2N codec o this w Hrevoke Hpayload Ho)
      as (j1 & w1 & Hrun1 & Ho1 & Hs1 & Hp1 & Hg1 & Hkeep & _).
    destruct (IH j1 w1) as (j' & w' & Hrun & Ho' & Hs' & Hp' & Hg' & Hkeep').
    { by rewrite Ho1. }
    { exact Hp1. }
    { by apply (signs_object_grows w). }
    exists j', w'. cbn [apply_operations]. unfold bind. rewrite Hrun1.
    split; [exact Hrun|]. split; [congruence|]. split; [congruence|].
    split; [exact Hp'|]. split; [by eapply grows_trans|].
    intros Hnv HQ. apply Forall_cons in Hnv as [Hnv1 Hnvs].
    apply Hkeep'; [exact Hnvs|]. by apply Hkeep.
Qed.

Lemma defaults_revoke_keeps_objects : revoke_keeps_objects defaults.
Proof. intros s w l H. exact H. Qed.

(** For a codec as [utils.t] has it (payloads are objects, and only
    [utils.verify] throws): whatever chain of [sign], [resign],
    [revoke], [store] and [verify] is run on a new token, every call
    returns and the payload of the token is an object at the end
    (never [undefined] or [null]), provided each [sign] is handed an
    object and the [revoke] callback deletes none; secret and options
    stay those of the constructor. *)
Theorem chain_keeps_payload_object (S2N : string -> number) (codec : utils.t)
    (secret' : string) (opts : Options.t) (os : list operation) (w : World) :
  revoke_keeps_objects opts ->
  Forall (signs_object w) os ->
  exists j' w' claims,
    (let* this := new_JWT secret' opts in apply_operations S2N codec os this) w
      = (Ok j', w')
    /\ heap w' !! payload j' = Some claims
    /\ options j' = opts /\ secret j' = secret'
    /\ grows w w'.
Proof.
  intros Hrevoke Hsigns.
  destruct (operations_run S2N codec os (constructed (fresh_loc w) secret' opts)
              (allocated ∅ w))
    as (j' & w' & Hrun & Ho & Hs & [claims Hp] & Hg & _).
  - exact Hrevoke.
  - cbn [payload constructed]. rewrite allocated_lookup. by eexists.
  - apply (signs_object_grows w); [apply grows_allocated|exact Hsigns].
  - exists j', w', claims. split; [unfold bind; rewrite new_JWT_run; exact Hrun|].
    split; [exact Hp|]. split; [exact Ho|]. split; [exact Hs|].
    eapply grows_trans; [apply grows_allocated|exact Hg].
Qed.

Lemma chain_keeps_payload_object_witness :
  let C : obj := {[ "admin" := VBool true ]} in
  let w := {| heap := {[ 0%nat := C ]}; trace := [] |} in
  let os := [OpVerify 1000000 (Some "expired"); OpSign 1000001 0%nat;
             OpVerify 1000002 None; OpResign 1000003; OpRevoke; OpStore] in
  exists j' w' claims,
    (let* this := new_JWT "secret" defaults in
     apply_operations decimal Stub.jsonwebtoken os this) w = (Ok j', w')
    /\ heap w' !! payload j' = Some claims
    /\ options j' = defaults /\ secret j' = "secret"
    /\ grows w w'.
Proof.
  intros C w os.
  apply (chain_keeps_payload_object decimal Stub.jsonwebtoken "secret" defaults os w).
  - exact defaults_revoke_keeps_objects.
  - unfold os. repeat constructor. cbn. by eexists.
Defined.

(** "Valid implies not expired" holds at the end of every chain in
    which [verify] is called at most once and first, right after the
    constructor, as [init]'s middleware does it: [sign] and [resign]
    clear [expired], [revoke] and [store] change no flag. *)
Theorem chain_valid_not_expired (S2N : string -> number) (codec : utils.t)
    (secret' : string) (opts : Options.t) (os : list operation) (w : World) :
  revoke_keeps_objects opts ->
  Forall (signs_object w) os ->
  Forall (fun o => is_verify o = false) (tail os) ->
  exists j' w',
    (let* this := new_JWT secret' opts in apply_operations S2N codec os this) w
      = (Ok j', w')
    /\ (valid j' = true -> expired j' = false).
Proof.
  intros Hrevoke Hsigns Hlater.
  set (this := constructed (fresh_loc w) secret' opts).
  assert (Hpayload : is_Some (heap (allocated ∅ w) !! payload this))
    by (cbn [payload this constructed]; rewrite allocated_lookup; by eexists).
  assert (Hsigns' : Forall (signs_object (allocated ∅ w)) os)
    by (apply (signs_object_grows w); [apply grows_allocated|exact Hsigns]).
  destruct os as [|o os].
  - exists this, (allocated ∅ w). split; [reflexivity|]. discriminate.
  - cbn [tail] in Hlater. apply Forall_cons in Hsigns' as [Ho Hos].
    destruct (operation_step S2N codec o this (allocated ∅ w) Hrevoke Hpayload Ho)
      as (j1 & w1 & Hrun1 & Ho1 & _ & Hp1 & Hg1 & _ & Hfirst).
    destruct (operations_run S2N codec os j1 w1)
      as (j' & w' & Hrun & _ & _ & _ & _ & Hkeep).
    { by rewrite Ho1. }
    { exact Hp1. }
    { by apply (signs_object_grows (allocated ∅ w)). }
    exists j', w'. split.
    + unfold bind at 1. rewrite new_JWT_run. cbv beta iota. fold this.
      cbn [apply_operations]. unfold bind at 1. rewrite Hrun1. exact Hrun.
    + apply Hkeep; [exact Hlater|]. apply Hfirst; reflexivity.
Qed.

Lemma chain_valid_not_expired_witness :
  let os := [OpVerify 1000000 (Some "expired"); OpResign 1000001; OpRevoke; OpStore] in
  exists j' w',
    (let* this := new_JWT "secret" defaults in
     apply_operations decimal Stub.jsonwebtoken os this) Stub.world0 = (Ok j', w')
    /\ (valid j' = true -> expired j' = false).
Proof.
  intros os.
  apply (chain_valid_not_expired decimal Stub.jsonwebtoken "secret" defaults os Stub.world0).
  - exact defaults_revoke_keeps_objects.
  - unfold os. repeat constructor.
  - unfold os. cbn [tail]. repeat constructor.
Defined.
